(** * Recurrent MAPPO learner (mava/systems/ppo/anakin/rec_mappo.py)

    A shallow embedding of the learner update pipeline of [rec_mappo.py] and
    the properties its specification states about it.

    - Integers of the configuration are [Z]; array extents are [nat].
    - Floating-point scalars are idealised as real numbers ([R]): rounding,
      NaN and infinities are outside the model.
    - An array is the list of its slices along the leading axis; trailing
      axes that an operation does not touch are the (abstract) element type.
    - External collaborators (networks, environment, optimiser, PRNG) are
      section variables: every theorem holds whatever they compute. *)

From Stdlib Require Import String ZArith Lia Bool Arith List Permutation.
From Stdlib Require Import Reals Lra.
Import ListNotations.

Set Implicit Arguments.

(** ** Python outcomes *)

Inductive Exception : Type :=
| AssertionError (msg : string)
| ZeroDivisionError
| IndexError
| ValueError.

Inductive Outcome (A : Type) : Type :=
| Raise (e : Exception)
| Return (a : A).

Arguments Raise {A} e.
Arguments Return {A} a.

Definition bind {A B : Type} (m : Outcome A) (k : A -> Outcome B) : Outcome B :=
  match m with
  | Raise e => Raise e
  | Return a => k a
  end.

Notation "x <- m ;; k" := (bind m (fun x => k))
  (at level 61, m at next level, right associativity).

(** Python's [a % b] on integers: the sign follows the divisor, and a zero
    divisor raises. *)
Definition py_mod (a b : Z) : Outcome Z :=
  if (b =? 0)%Z then Raise ZeroDivisionError else Return (a mod b)%Z.

(** [assert cond, msg] *)
Definition py_assert (cond : bool) (msg : string) : Outcome unit :=
  if cond then Return tt else Raise (AssertionError msg).

(** ** Configuration checks at the start of [run_experiment] *)

(** The options of [config.system] and [config.arch] that the checks read.
    [recurrent_chunk_size = None] is Python's [None]. *)
Record Config : Type := {
  rollout_length : Z;
  recurrent_chunk_size : option Z;
  num_envs : Z;
  num_minibatches : Z
}.

Definition set_recurrent_chunk_size (config : Config) (c : Z) : Config :=
  {| rollout_length := rollout_length config;
     recurrent_chunk_size := Some c;
     num_envs := num_envs config;
     num_minibatches := num_minibatches config |}.

Definition rollout_msg : string :=
  "Rollout length must be divisible by recurrent chunk size.".
Definition envs_msg : string :=
  "Number of envs must be divisibile by number of minibatches.".

Section RunExperiment.

(** Everything [run_experiment] does after the checks (lines 557-677:
    environment construction, learner set-up, the training loop), as a
    function of the configuration the checks leave behind. *)
Variable Perf : Type.
Variable experiment : Config -> Outcome Perf.

(** Lines 545-555, followed by the rest of the function. *)
Definition run_experiment (config : Config) : Outcome Perf :=
  config' <-
    match recurrent_chunk_size config with
    | None => Return (set_recurrent_chunk_size config (rollout_length config))
    | Some chunk =>
        r <- py_mod (rollout_length config) chunk ;;
        _ <- py_assert (r =? 0)%Z rollout_msg ;;
        r' <- py_mod (num_envs config) (num_minibatches config) ;;
        _ <- py_assert (r' =? 0)%Z envs_msg ;;
        Return config
    end ;;
  experiment config'.

(** X3: an explicit chunk size that does not divide the rollout length
    stops the run at the first assertion, whatever the rest of the
    experiment is. *)
Lemma run_experiment_rejects_rollout (config : Config) (chunk : Z) :
  recurrent_chunk_size config = Some chunk ->
  chunk <> 0%Z ->
  (rollout_length config mod chunk <> 0)%Z ->
  run_experiment config = Raise (AssertionError rollout_msg).
Proof.
  intros Hc Hz Hm. unfold run_experiment, py_mod. rewrite Hc.
  destruct (Z.eqb_spec chunk 0); [contradiction |].
  cbn. destruct (Z.eqb_spec (rollout_length config mod chunk) 0); [contradiction |].
  reflexivity.
Qed.

(** [rollout_length=5, recurrent_chunk_size=2] raises before the experiment. *)
Example run_experiment_5_2 (n m : Z) :
  run_experiment {| rollout_length := 5; recurrent_chunk_size := Some 2%Z;
                    num_envs := n; num_minibatches := m |}
  = Raise (AssertionError rollout_msg).
Proof. reflexivity. Qed.

(** A zero chunk size raises as well, from the [%] itself. *)
Lemma run_experiment_zero_chunk (config : Config) :
  recurrent_chunk_size config = Some 0%Z ->
  run_experiment config = Raise ZeroDivisionError.
Proof. intros Hc. unfold run_experiment. rewrite Hc. reflexivity. Qed.

(** X4: with an explicit chunk size that divides the rollout length, an
    environment count that the minibatch count does not divide stops the run
    at the second assertion. *)
Lemma run_experiment_rejects_envs (config : Config) (chunk : Z) :
  recurrent_chunk_size config = Some chunk ->
  chunk <> 0%Z ->
  (rollout_length config mod chunk = 0)%Z ->
  num_minibatches config <> 0%Z ->
  (num_envs config mod num_minibatches config <> 0)%Z ->
  run_experiment config = Raise (AssertionError envs_msg).
Proof.
  intros Hc Hz Hm Hn He. unfold run_experiment, py_mod. rewrite Hc.
  destruct (Z.eqb_spec chunk 0); [contradiction |].
  cbn. rewrite Hm. cbn.
  destruct (Z.eqb_spec (num_minibatches config) 0); [contradiction |].
  cbn. destruct (Z.eqb_spec (num_envs config mod num_minibatches config) 0);
    [contradiction | reflexivity].
Qed.

(** C8 (the code at a failing input): with [recurrent_chunk_size] unset,
    [num_envs = 3] and [num_minibatches = 2], no error is raised by the
    checks: the run goes on into the experiment, with the chunk size set to
    the rollout length. *)
Theorem run_experiment_unset_chunk_skips_envs_check :
  run_experiment {| rollout_length := 4; recurrent_chunk_size := None;
                    num_envs := 3; num_minibatches := 2 |}
  = experiment {| rollout_length := 4; recurrent_chunk_size := Some 4%Z;
                  num_envs := 3; num_minibatches := 2 |}.
Proof. reflexivity. Qed.

(** C10: when [recurrent_chunk_size] is [None], [run_experiment] sets it to
    [rollout_length] and goes straight on to the rest of the experiment:
    neither assertion is evaluated, whatever [num_envs] and
    [num_minibatches] are. *)
Theorem run_experiment_unset_chunk (config : Config) :
  recurrent_chunk_size config = None ->
  run_experiment config
  = experiment (set_recurrent_chunk_size config (rollout_length config)).
Proof. intros Hc. unfold run_experiment. rewrite Hc. reflexivity. Qed.

(** The environment-count assertion can only fire for an explicit chunk
    size (when the rest of the experiment does not raise it itself). *)
Lemma envs_assertion_only_with_explicit_chunk (config : Config) :
  (forall c, experiment c <> Raise (AssertionError envs_msg)) ->
  run_experiment config = Raise (AssertionError envs_msg) ->
  exists chunk, recurrent_chunk_size config = Some chunk.
Proof.
  intros Hexp Hrun. destruct (recurrent_chunk_size config) as [chunk |] eqn:Hc.
  - now exists chunk.
  - unfold run_experiment in Hrun. rewrite Hc in Hrun. cbn in Hrun.
    now apply Hexp in Hrun.
Qed.

End RunExperiment.

(** The checks alone: the rest of the experiment hands the configuration
    back. *)
Definition config_checks : Config -> Outcome Config := run_experiment Return.

Lemma run_experiment_rejects_rollout_witness :
  config_checks {| rollout_length := 5; recurrent_chunk_size := Some 2%Z;
                   num_envs := 4; num_minibatches := 2 |}
  = Raise (AssertionError rollout_msg).
Proof.
  apply (@run_experiment_rejects_rollout Config Return _ 2%Z);
    [reflexivity | discriminate | discriminate].
Defined.

Lemma run_experiment_rejects_envs_witness :
  config_checks {| rollout_length := 4; recurrent_chunk_size := Some 2%Z;
                   num_envs := 3; num_minibatches := 2 |}
  = Raise (AssertionError envs_msg).
Proof.
  apply (@run_experiment_rejects_envs Config Return _ 2%Z);
    [reflexivity | discriminate | reflexivity | discriminate | discriminate].
Defined.

Lemma run_experiment_unset_chunk_witness :
  config_checks {| rollout_length := 128; recurrent_chunk_size := None;
                   num_envs := 3; num_minibatches := 2 |}
  = Return {| rollout_length := 128; recurrent_chunk_size := Some 128%Z;
              num_envs := 3; num_minibatches := 2 |}.
Proof.
  exact (run_experiment_unset_chunk Return
           {| rollout_length := 128; recurrent_chunk_size := None;
              num_envs := 3; num_minibatches := 2 |} eq_refl).
Defined.

(** ** Arrays with two leading axes *)

Section Arrays.

Variable A : Type.

(** An array of shape [(rows, cols, ...)] is the list of its [rows] slices,
    each the list of its [cols] elements. *)
Definition shape2 (rows cols : nat) (x : list (list A)) : Prop :=
  length x = rows /\ Forall (fun row => length row = cols) x.

(** [rows] consecutive slices of length [cols] of a flat buffer. *)
Fixpoint chunks (cols : nat) (flat : list A) (rows : nat) : list (list A) :=
  match rows with
  | 0 => []
  | S rows' => firstn cols flat :: chunks cols (skipn cols flat) rows'
  end.

(** [x.reshape(rows, cols, *x.shape[2:])]: the elements in row-major (C)
    order, cut into [rows] rows of [cols]. [None] stands for the error
    raised when the sizes do not match. *)
Definition reshape (rows cols : nat) (x : list (list A)) : option (list (list A)) :=
  let flat := concat x in
  if length flat =? rows * cols then Some (chunks cols flat rows) else None.

(** [jnp.take(x, indices, axis=1)]; an index out of range yields the fill
    value. *)
Definition take_axis1 (fill : A) (indices : list nat) (x : list (list A)) :
  list (list A) :=
  map (fun row => map (fun j => nth j row fill) indices) x.

(** [jnp.reshape(x, (x.shape[0], n, -1, *x.shape[2:]))] for [x] of shape
    [(_, cols, ...)]: every row is cut into [n] pieces of [cols / n]. [None]
    when [n] does not divide [cols]. *)
Definition reshape_split (n cols : nat) (x : list (list A)) :
  option (list (list (list A))) :=
  if (n =? 0) || negb (cols mod n =? 0) then None
  else Some (map (fun row => chunks (cols / n) row n) x).

(** [x[:, b]]: the sequence that position [b] of the second axis holds along
    the leading axis. *)
Definition column (fill : A) (b : nat) (x : list (list A)) : list A :=
  map (fun row => nth b row fill) x.

End Arrays.

(** [jnp.swapaxes(x, 1, 0)] for [x] of shape [(_, n1, ...)]. *)
Definition swapaxes (B : Type) (fill : B) (n1 : nat) (x : list (list B)) :
  list (list B) :=
  map (fun j => column fill j x) (seq 0 n1).

(** ** The minibatch shuffler of [_update_epoch] (lines 298-321) *)

Section Shuffler.

(** [config.system.rollout_length], [config.system.recurrent_chunk_size],
    [config.arch.num_envs], [config.system.num_minibatches] as array
    extents. *)
Variables (rollout_len chunk_size n_envs n_minibatches : nat).

(** [rollout_length // recurrent_chunk_size]. Python raises on a zero chunk
    size, where [/] gives 0: what is proved below assumes a positive one. *)
Definition num_recurrent_chunks : nat := rollout_len / chunk_size.

(** The extent of the flattened batch axis. *)
Definition batch_extent : nat := n_envs * num_recurrent_chunks.

Variable A : Type.
Variable fill : A.

(** One leaf of [batch]: the three [tree.map]s and the [jnp.take] in
    between, for the permutation [jax.random.permutation] drew. *)
Definition minibatches_of (permutation : list nat) (x : list (list A)) :
  option (list (list (list A))) :=
  match reshape chunk_size batch_extent x with
  | None => None
  | Some batch =>
      let shuffled_batch := take_axis1 fill permutation batch in
      match reshape_split n_minibatches (length permutation) shuffled_batch with
      | None => None
      | Some reshaped_batch => Some (swapaxes [] n_minibatches reshaped_batch)
      end
  end.

End Shuffler.

Example reshape_arange :
  reshape 2 2 [[0]; [1]; [2]; [3]] = Some [[0; 1]; [2; 3]].
Proof. reflexivity. Qed.

Example minibatches_arange :
  minibatches_of 4 2 2 2 0 [1; 3; 0; 2]
    [[0; 1]; [10; 11]; [20; 21]; [30; 31]]
  = Some [ [[1; 11]; [21; 31]]; [[0; 10]; [20; 30]] ].
Proof. reflexivity. Qed.

(** The inverse of a permutation of [0 .. n-1] ([jnp.argsort]): position
    [i] holds the place where the permutation holds [i]. *)
Fixpoint index_of (i : nat) (l : list nat) : nat :=
  match l with
  | [] => 0
  | j :: l' => if j =? i then 0 else S (index_of i l')
  end.

Definition inverse_permutation (permutation : list nat) : list nat :=
  map (fun i => index_of i permutation) (seq 0 (length permutation)).

(** The way back from the minibatches of one leaf, for the permutation that
    was used. It is not part of the source: it is the inverse the
    round-trip property speaks of (swap the axes back, merge the minibatch
    axis, undo the permutation, restore the time axis). *)
Definition unshuffle (rollout_len chunk_size n_envs : nat) (A : Type) (fill : A)
  (permutation : list nat) (minibatches : list (list (list A))) :
  option (list (list A)) :=
  let reshaped_batch := swapaxes [] chunk_size minibatches in
  let shuffled_batch := map (@concat A) reshaped_batch in
  let batch := take_axis1 fill (inverse_permutation permutation) shuffled_batch in
  reshape rollout_len n_envs batch.

(** ** Facts about reshaping *)

Section ArrayFacts.

Variable A : Type.
Implicit Types (l flat row : list A) (x : list (list A)).

Lemma map_nth_seq l (d : A) :
  map (fun i => nth i l d) (seq 0 (length l)) = l.
Proof.
  induction l as [| a l IH]; [reflexivity |].
  cbn [length seq map nth]. f_equal.
  rewrite <- seq_shift, map_map. exact IH.
Qed.

Lemma map_seq_eq l (d : A) (f : nat -> A) :
  (forall i, i < length l -> f i = nth i l d) -> map f (seq 0 (length l)) = l.
Proof.
  intros Hf. rewrite <- (map_nth_seq l d) at 2.
  apply map_ext_in. intros i Hi. apply in_seq in Hi. apply Hf. lia.
Qed.

Lemma length_chunks cols flat rows : length (chunks cols flat rows) = rows.
Proof.
  revert flat. induction rows as [| r IH]; intros flat; cbn; [| rewrite IH]; reflexivity.
Qed.

Lemma concat_chunks cols rows : forall flat,
  length flat = rows * cols -> concat (chunks cols flat rows) = flat.
Proof.
  induction rows as [| r IH]; intros flat Hlen; cbn in *.
  - symmetry. now apply length_zero_iff_nil.
  - rewrite IH; [apply firstn_skipn |]. rewrite length_skipn. lia.
Qed.

Lemma chunks_row_length cols rows : forall flat,
  length flat = rows * cols ->
  Forall (fun row => length row = cols) (chunks cols flat rows).
Proof.
  induction rows as [| r IH]; intros flat Hlen; cbn in *; constructor.
  - rewrite length_firstn. lia.
  - apply IH. rewrite length_skipn. lia.
Qed.

Lemma chunks_concat cols x :
  Forall (fun row => length row = cols) x ->
  chunks cols (concat x) (length x) = x.
Proof.
  induction 1 as [| row x Hrow _ IH]; cbn; [reflexivity |].
  subst cols. rewrite firstn_app, Nat.sub_diag, firstn_all, firstn_O, app_nil_r.
  rewrite skipn_app, Nat.sub_diag, skipn_all, skipn_O. cbn. now rewrite IH.
Qed.

Lemma length_concat_shape rows cols x :
  shape2 rows cols x -> length (concat x) = rows * cols.
Proof.
  intros [Hlen Hrows]. subst rows.
  induction Hrows as [| row x Hrow _ IH]; cbn; [reflexivity |].
  rewrite length_app, IH. lia.
Qed.

(** Reshaping succeeds exactly on the right number of elements, and gives
    an array of the requested shape with the same elements in the same
    row-major order. *)
Lemma reshape_shape rows cols rows' cols' x :
  shape2 rows cols x -> rows * cols = rows' * cols' ->
  exists y, reshape rows' cols' x = Some y /\ shape2 rows' cols' y /\
            concat y = concat x.
Proof.
  intros Hx Heq. unfold reshape.
  pose proof (length_concat_shape Hx) as Hlen. rewrite Heq in Hlen.
  rewrite Hlen, Nat.eqb_refl. eexists. split; [reflexivity |]. split.
  - split; [apply length_chunks | now apply chunks_row_length].
  - now apply concat_chunks.
Qed.

(** Two arrays of one shape with the same row-major contents are equal. *)
Lemma shape2_concat_inj rows cols x y :
  shape2 rows cols x -> shape2 rows cols y -> concat x = concat y -> x = y.
Proof.
  intros [Hx Hxr] [Hy Hyr] Heq.
  rewrite <- (chunks_concat Hxr), <- (chunks_concat Hyr), Heq. congruence.
Qed.

End ArrayFacts.

Section ShuffleFacts.

Variable A : Type.
Variable fill : A.

Lemma column_nth (B : Type) (d : B) (j : nat) (x : list (list B)) (i : nat) :
  i < length x -> nth i (column d j x) d = nth j (nth i x []) d.
Proof.
  intros Hi. unfold column.
  rewrite (nth_indep _ d (nth j [] d)) by now rewrite length_map.
  now rewrite (map_nth (fun row => nth j row d)).
Qed.

(** Swapping the two leading axes twice gives the array back. *)
Lemma swapaxes_involutive (B : Type) (d : B) (n0 n1 : nat) (x : list (list B)) :
  shape2 n0 n1 x -> swapaxes d n0 (swapaxes d n1 x) = x.
Proof.
  intros [Hlen Hrows]. unfold swapaxes at 1. subst n0.
  apply map_seq_eq with (d := []). intros i Hi.
  assert (Hrow : length (nth i x []) = n1).
  { rewrite Forall_forall in Hrows. apply Hrows, nth_In; lia. }
  unfold column at 1. unfold swapaxes. rewrite map_map, <- Hrow.
  apply map_seq_eq with (d := d). intros j _. now apply column_nth.
Qed.

Lemma swapaxes_shape (B : Type) (d : B) (n0 n1 : nat) (x : list (list B)) :
  length x = n0 -> shape2 n1 n0 (swapaxes d n1 x).
Proof.
  intros Hlen. split.
  - unfold swapaxes. now rewrite length_map, length_seq.
  - apply Forall_forall. intros col Hin. unfold swapaxes in Hin.
    apply in_map_iff in Hin as [j [<- _]]. unfold column. now rewrite length_map.
Qed.

Lemma index_of_spec (i : nat) (l : list nat) :
  In i l -> index_of i l < length l /\ nth (index_of i l) l 0 = i.
Proof.
  induction l as [| j l IH]; cbn; [easy |].
  intros Hin. destruct (Nat.eqb_spec j i) as [-> | Hne].
  - split; [lia | reflexivity].
  - destruct Hin as [? | Hin]; [contradiction |].
    destruct (IH Hin). split; [lia | assumption].
Qed.

(** Taking by a permutation and then by its inverse gives the row back. *)
Lemma take_inverse_row (permutation : list nat) (row : list A) :
  Permutation permutation (seq 0 (length row)) ->
  map (fun j => nth j (map (fun i => nth i row fill) permutation) fill)
      (inverse_permutation permutation) = row.
Proof.
  intros Hperm. pose proof (Permutation_length Hperm) as Hlen.
  rewrite length_seq in Hlen.
  unfold inverse_permutation. rewrite map_map, Hlen.
  apply map_seq_eq with (d := fill). intros i Hi.
  assert (Hin : In i permutation).
  { eapply Permutation_in; [symmetry; exact Hperm | apply in_seq; lia]. }
  destruct (index_of_spec i permutation Hin) as [Hlt Hnth].
  rewrite (nth_indep _ fill (nth 0 row fill)) by now rewrite length_map.
  rewrite (map_nth (fun i => nth i row fill)), Hnth. reflexivity.
Qed.

Lemma take_inverse (cols : nat) (permutation : list nat) (x : list (list A)) :
  Forall (fun row => length row = cols) x ->
  Permutation permutation (seq 0 cols) ->
  take_axis1 fill (inverse_permutation permutation)
    (take_axis1 fill permutation x) = x.
Proof.
  intros Hrows Hperm. unfold take_axis1. rewrite map_map.
  etransitivity; [| apply map_id]. apply map_ext_in. intros row Hin.
  rewrite Forall_forall in Hrows. specialize (Hrows row Hin). subst cols.
  now apply take_inverse_row.
Qed.

Lemma take_axis1_shape (rows : nat) (indices : list nat) (x : list (list A)) :
  length x = rows -> shape2 rows (length indices) (take_axis1 fill indices x).
Proof.
  intros Hlen. unfold take_axis1. split; [now rewrite length_map |].
  apply Forall_forall. intros row Hin. apply in_map_iff in Hin as [r [<- _]].
  now rewrite length_map.
Qed.

(** Cutting every row into [n] pieces and merging them again. *)
Lemma concat_reshape_split (n cols : nat) (x : list (list A)) (y : list (list (list A))) :
  Forall (fun row => length row = cols) x ->
  reshape_split n cols x = Some y ->
  map (@concat A) y = x /\ shape2 (length x) n y.
Proof.
  intros Hrows. unfold reshape_split.
  destruct (Nat.eqb_spec n 0) as [| Hn]; [discriminate |]. cbn [orb].
  destruct (Nat.eqb_spec (cols mod n) 0) as [Hmod |]; [| discriminate].
  cbn [negb]. intros [= <-]. split.
  - rewrite map_map. etransitivity; [| apply map_id]. apply map_ext_in.
    intros row Hin. rewrite Forall_forall in Hrows.
    apply concat_chunks. rewrite (Hrows row Hin).
    apply Nat.Div0.div_exact in Hmod. lia.
  - split; [now rewrite length_map |].
    apply Forall_forall. intros p Hin. apply in_map_iff in Hin as [r [<- _]].
    apply length_chunks.
Qed.

End ShuffleFacts.

(** Whatever minibatches the shuffle of one leaf produces, the way back
    recovers the leaf, given the permutation. *)
Lemma minibatches_round_trip (rollout_len chunk_size n_envs n_minibatches : nat)
  (A : Type) (fill : A) (permutation : list nat) (x : list (list A))
  (minibatches : list (list (list A))) :
  0 < chunk_size -> rollout_len mod chunk_size = 0 ->
  shape2 rollout_len n_envs x ->
  Permutation permutation (seq 0 (batch_extent rollout_len chunk_size n_envs)) ->
  minibatches_of rollout_len chunk_size n_envs n_minibatches fill permutation x
    = Some minibatches ->
  unshuffle rollout_len chunk_size n_envs fill permutation minibatches = Some x.
Proof.
  intros Hc Hdiv Hx Hperm. unfold minibatches_of, unshuffle.
  set (M := batch_extent rollout_len chunk_size n_envs) in *.
  assert (Hsize : rollout_len * n_envs = chunk_size * M).
  { unfold M, batch_extent, num_recurrent_chunks.
    apply Nat.Div0.div_exact in Hdiv. nia. }
  edestruct (@reshape_shape A) as [batch [-> [Hbatch Hflat]]];
    [exact Hx | exact Hsize |].
  pose proof (Permutation_length Hperm) as Hplen. rewrite length_seq in Hplen.
  destruct Hbatch as [Hblen Hbrows].
  assert (Hs : shape2 chunk_size (length permutation)
                 (take_axis1 fill permutation batch))
    by now apply take_axis1_shape.
  destruct Hs as [Hslen Hsrows].
  destruct (reshape_split n_minibatches (length permutation)
              (take_axis1 fill permutation batch))
    as [reshaped |] eqn:Hsplit; [| discriminate].
  intros [= <-].
  edestruct (@concat_reshape_split A) as [Hmerge Hrshape];
    [exact Hsrows | exact Hsplit |].
  rewrite Hslen in Hrshape.
  rewrite (@swapaxes_involutive _ [] chunk_size n_minibatches reshaped Hrshape).
  rewrite Hmerge, (@take_inverse A fill M permutation batch Hbrows Hperm).
  edestruct (@reshape_shape A) as [y [-> [Hy Hyflat]]];
    [exact (conj Hblen Hbrows) | exact (eq_sym Hsize) |].
  f_equal. apply (@shape2_concat_inj A rollout_len n_envs y x Hy Hx). congruence.
Qed.

(** The shuffle of one leaf produces minibatches when the minibatch count
    divides the number of environments. *)
Lemma minibatches_defined (rollout_len chunk_size n_envs n_minibatches : nat)
  (A : Type) (fill : A) (permutation : list nat) (x : list (list A)) :
  0 < chunk_size -> rollout_len mod chunk_size = 0 ->
  0 < n_minibatches -> n_envs mod n_minibatches = 0 ->
  shape2 rollout_len n_envs x ->
  Permutation permutation (seq 0 (batch_extent rollout_len chunk_size n_envs)) ->
  exists minibatches,
    minibatches_of rollout_len chunk_size n_envs n_minibatches fill permutation x
      = Some minibatches.
Proof.
  intros Hc Hdiv Hm Hdivm Hx Hperm. unfold minibatches_of.
  set (M := batch_extent rollout_len chunk_size n_envs) in *.
  assert (Hsize : rollout_len * n_envs = chunk_size * M).
  { unfold M, batch_extent, num_recurrent_chunks.
    apply Nat.Div0.div_exact in Hdiv. nia. }
  assert (HM : M mod n_minibatches = 0).
  { unfold M, batch_extent. apply Nat.Div0.div_exact in Hdivm.
    rewrite Hdivm.
    replace (n_minibatches * (n_envs / n_minibatches)
             * num_recurrent_chunks rollout_len chunk_size)
      with ((n_envs / n_minibatches)
            * num_recurrent_chunks rollout_len chunk_size * n_minibatches)
      by lia.
    apply Nat.Div0.mod_mul. }
  edestruct (@reshape_shape A) as [batch [-> _]]; [exact Hx | exact Hsize |].
  pose proof (Permutation_length Hperm) as Hplen. rewrite length_seq in Hplen.
  unfold reshape_split. rewrite Hplen, HM.
  destruct (Nat.eqb_spec n_minibatches 0); [lia |]. cbn. eexists. reflexivity.
Qed.

(** ** The joint shuffle of [batch = (traj_batch, advantages, targets)] *)

Section JointShuffle.

Variables (rollout_len chunk_size n_envs n_minibatches : nat).

(** The element types of the three leaves: what a trajectory, an advantage
    and a target array hold at one time step of one environment, and the
    fill value of each. [traj_batch] stands for every leaf of the
    transition record at once, since [tree.map] treats them alike. *)
Variables (T Adv Tgt : Type) (fill_T : T) (fill_Adv : Adv) (fill_Tgt : Tgt).

(** Lines 299-321: one permutation, applied to all three. *)
Definition shuffle_minibatches (permutation : list nat)
  (batch : list (list T) * list (list Adv) * list (list Tgt)) :
  option (list (list (list T)) * list (list (list Adv)) * list (list (list Tgt))) :=
  let '(traj_batch, advantages, targets) := batch in
  let shuffle (A : Type) (fill : A) :=
    minibatches_of rollout_len chunk_size n_envs n_minibatches fill permutation in
  match shuffle T fill_T traj_batch, shuffle Adv fill_Adv advantages,
        shuffle Tgt fill_Tgt targets with
  | Some t, Some a, Some g => Some (t, a, g)
  | _, _, _ => None
  end.

(** The way back, leaf by leaf, with the same permutation. *)
Definition unshuffle_minibatches (permutation : list nat)
  (minibatches : list (list (list T)) * list (list (list Adv)) * list (list (list Tgt))) :
  option (list (list T) * list (list Adv) * list (list Tgt)) :=
  let '(t, a, g) := minibatches in
  let back (A : Type) (fill : A) :=
    unshuffle rollout_len chunk_size n_envs fill permutation in
  match back T fill_T t, back Adv fill_Adv a, back Tgt fill_Tgt g with
  | Some traj_batch, Some advantages, Some targets =>
      Some (traj_batch, advantages, targets)
  | _, _, _ => None
  end.

(** C7: for a chunk size that divides the rollout length and for the
    permutation drawn in the epoch, the reshape-permute-split-swapaxes
    pipeline is invertible: from the minibatches it produces, the inverse
    permutation and the inverse reshapes recover the trajectory, the
    advantages and the targets in their original order. It does produce
    minibatches when the minibatch count divides the number of
    environments. *)
Theorem shuffle_round_trip (permutation : list nat)
  (traj_batch : list (list T)) (advantages : list (list Adv))
  (targets : list (list Tgt)) :
  0 < chunk_size -> rollout_len mod chunk_size = 0 ->
  shape2 rollout_len n_envs traj_batch ->
  shape2 rollout_len n_envs advantages ->
  shape2 rollout_len n_envs targets ->
  Permutation permutation (seq 0 (batch_extent rollout_len chunk_size n_envs)) ->
  (forall minibatches,
     shuffle_minibatches permutation (traj_batch, advantages, targets)
       = Some minibatches ->
     unshuffle_minibatches permutation minibatches
       = Some (traj_batch, advantages, targets)) /\
  (0 < n_minibatches -> n_envs mod n_minibatches = 0 ->
   exists minibatches,
     shuffle_minibatches permutation (traj_batch, advantages, targets)
       = Some minibatches).
Proof.
  intros Hc Hdiv Ht Ha Hg Hperm. unfold shuffle_minibatches, unshuffle_minibatches.
  split.
  - intros [[t a] g] Hsome.
    destruct (minibatches_of _ _ _ _ fill_T _ _) as [t' |] eqn:Et; [| discriminate].
    destruct (minibatches_of _ _ _ _ fill_Adv _ _) as [a' |] eqn:Ea; [| discriminate].
    destruct (minibatches_of _ _ _ _ fill_Tgt _ _) as [g' |] eqn:Eg; [| discriminate].
    injection Hsome as <- <- <-.
    rewrite (@minibatches_round_trip _ _ _ _ _ fill_T _ _ _ Hc Hdiv Ht Hperm Et).
    rewrite (@minibatches_round_trip _ _ _ _ _ fill_Adv _ _ _ Hc Hdiv Ha Hperm Ea).
    rewrite (@minibatches_round_trip _ _ _ _ _ fill_Tgt _ _ _ Hc Hdiv Hg Hperm Eg).
    reflexivity.
  - intros Hm Hdivm.
    edestruct (@minibatches_defined rollout_len chunk_size n_envs n_minibatches T fill_T)
      as [t Et]; [exact Hc | exact Hdiv | exact Hm | exact Hdivm | exact Ht | exact Hperm |].
    edestruct (@minibatches_defined rollout_len chunk_size n_envs n_minibatches Adv fill_Adv)
      as [a Ea]; [exact Hc | exact Hdiv | exact Hm | exact Hdivm | exact Ha | exact Hperm |].
    edestruct (@minibatches_defined rollout_len chunk_size n_envs n_minibatches Tgt fill_Tgt)
      as [g Eg]; [exact Hc | exact Hdiv | exact Hm | exact Hdivm | exact Hg | exact Hperm |].
    exists (t, a, g). now rewrite Et, Ea, Eg.
Qed.

End JointShuffle.

(** [rollout_length=4], [recurrent_chunk_size=2], two environments, two
    minibatches: an arange-valued trajectory (the entry of step [t] and
    environment [e] is [2t+e]) comes back from its minibatches. *)
Lemma shuffle_round_trip_witness :
  let batch :=
    ([[0; 1]; [2; 3]; [4; 5]; [6; 7]],
     [[10; 11]; [12; 13]; [14; 15]; [16; 17]],
     [[20; 21]; [22; 23]; [24; 25]; [26; 27]]) in
  (forall minibatches,
     shuffle_minibatches 4 2 2 2 0 0 0 [1; 3; 0; 2] batch = Some minibatches ->
     unshuffle_minibatches 4 2 2 0 0 0 [1; 3; 0; 2] minibatches = Some batch) /\
  (0 < 2 -> 2 mod 2 = 0 ->
   exists minibatches,
     shuffle_minibatches 4 2 2 2 0 0 0 [1; 3; 0; 2] batch = Some minibatches).
Proof.
  apply shuffle_round_trip;
    try (cbn; lia); try reflexivity;
    try (split; [reflexivity | repeat constructor]).
  apply (Permutation_cons_app [0] [2; 3]).
  apply (Permutation_cons_app [0; 2] []).
  apply Permutation_refl.
Defined.

(** ** Chunks and time *)

(** A sequence [s] of length [len] is a run of consecutive time steps of
    the trajectory [x] when it lists, for some start [t0] and some
    environment [e], the entries [x[t0][e], x[t0+1][e], ...]. *)
Definition contiguous_run (A : Type) (fill : A) (x : list (list A)) (len : nat)
  (s : list A) : Prop :=
  exists t0 e, t0 + len <= length x /\
    s = map (fun c => nth e (nth (t0 + c) x []) fill) (seq 0 len).

Lemma nth_nil (B : Type) (k : nat) (d : B) : nth k [] d = d.
Proof. now destruct k. Qed.

Section ReshapeEntries.

Variable A : Type.
Variable fill : A.

(** Entry [(c, b)] of the rows cut from a flat buffer. *)
Lemma nth_chunks (cols rows : nat) : forall (flat : list A) (c b : nat),
  c < rows -> b < cols ->
  nth b (nth c (chunks cols flat rows) []) fill = nth (c * cols + b) flat fill.
Proof.
  induction rows as [| r IH]; intros flat c b Hc Hb; [lia |].
  cbn [chunks]. destruct c as [| c]; cbn [nth].
  - rewrite nth_firstn. destruct (Nat.ltb_spec b cols); [reflexivity | lia].
  - rewrite IH, nth_skipn by lia. f_equal. lia.
Qed.

(** Entry [i] of the row-major contents of an array with rows of [cols]. *)
Lemma nth_concat (cols : nat) (x : list (list A)) : forall i : nat,
  0 < cols -> Forall (fun row => length row = cols) x ->
  nth i (concat x) fill = nth (i mod cols) (nth (i / cols) x []) fill.
Proof.
  intros i Hpos Hrows. revert i.
  induction Hrows as [| row x Hrow _ IH]; intros i.
  - cbn [concat]. now rewrite !nth_nil.
  - cbn [concat]. destruct (Nat.lt_ge_cases i cols) as [Hlt | Hge].
    + rewrite app_nth1 by lia.
      now rewrite Nat.div_small, Nat.mod_small by assumption.
    + rewrite app_nth2, IH, Hrow by lia.
      replace i with (1 * cols + (i - cols)) at 3 4 by lia.
      rewrite Nat.div_add_l by lia.
      rewrite (Nat.add_comm (1 * cols)), Nat.Div0.mod_add.
      reflexivity.
Qed.

(** X1: where the first reshape of the shuffler puts the steps: entry [c] of
    position [b] of the flattened batch axis is the entry of environment
    [b mod num_envs] at time step [c * (H / C) + b / num_envs]. Along the
    leading axis a position thus walks through time in strides of [H / C],
    the number of chunks. *)
Lemma reshape_entry (rollout_len chunk_size n_envs : nat) (x y : list (list A))
  (c b : nat) :
  0 < n_envs -> shape2 rollout_len n_envs x ->
  reshape chunk_size (batch_extent rollout_len chunk_size n_envs) x = Some y ->
  c < chunk_size -> b < batch_extent rollout_len chunk_size n_envs ->
  nth c (column fill b y) fill
  = nth (b mod n_envs)
        (nth (c * num_recurrent_chunks rollout_len chunk_size + b / n_envs) x [])
        fill.
Proof.
  intros Hn [Hlen Hrows] Hre Hc Hb. unfold reshape in Hre.
  destruct (length (concat x) =? _); [| discriminate]. injection Hre as <-.
  rewrite column_nth by now rewrite length_chunks.
  rewrite nth_chunks by assumption.
  rewrite (nth_concat _ Hn Hrows). unfold batch_extent.
  set (K := num_recurrent_chunks rollout_len chunk_size).
  replace (c * (n_envs * K) + b) with (c * K * n_envs + b) by lia.
  rewrite Nat.div_add_l by lia.
  rewrite (Nat.add_comm (c * K * n_envs)), Nat.Div0.mod_add.
  reflexivity.
Qed.

End ReshapeEntries.

(** Four steps of two environments in chunks of two: entry 1 of batch
    position 3 is environment 1 at step 3, two steps after its entry 0. *)
Lemma reshape_entry_witness :
  nth 1 (column 0 3 [[0; 1; 10; 11]; [20; 21; 30; 31]]) 0
  = nth (3 mod 2)
        (nth (1 * num_recurrent_chunks 4 2 + 3 / 2)
             [[0; 1]; [10; 11]; [20; 21]; [30; 31]] []) 0.
Proof.
  apply (@reshape_entry nat 0 4 2 2 [[0; 1]; [10; 11]; [20; 21]; [30; 31]]);
    try reflexivity; try (cbn; lia).
  split; [reflexivity | repeat constructor].
Defined.

(** C1 (the code at a failing input): for [rollout_length=4],
    [recurrent_chunk_size=2] and one environment, the reshape of the
    arange-valued trajectory [0,1,2,3] puts the steps [0,2] in the first
    position of the batch axis and [1,3] in the second: neither sequence is
    a run of consecutive steps. *)
Theorem reshape_chunks_are_strided :
  reshape 2 (batch_extent 4 2 1) [[0]; [1]; [2]; [3]] = Some [[0; 1]; [2; 3]] /\
  column 0 0 [[0; 1]; [2; 3]] = [0; 2] /\
  column 0 1 [[0; 1]; [2; 3]] = [1; 3] /\
  ~ contiguous_run 0 [[0]; [1]; [2]; [3]] 2 (column 0 0 [[0; 1]; [2; 3]]) /\
  ~ contiguous_run 0 [[0]; [1]; [2]; [3]] 2 (column 0 1 [[0; 1]; [2; 3]]).
Proof.
  repeat split; try reflexivity.
  - intros [t0 [e [Hle Heq]]]. cbn in Hle, Heq.
    destruct t0 as [| [| [| t0]]]; [| | | lia];
      destruct e as [| e]; cbn in Heq; try discriminate;
      destruct e; discriminate.
  - intros [t0 [e [Hle Heq]]]. cbn in Hle, Heq.
    destruct t0 as [| [| [| t0]]]; [| | | lia];
      destruct e as [| e]; cbn in Heq; try discriminate;
      destruct e; discriminate.
Qed.

(** ** Transitions and learner state *)

(** [RNNPPOTransition] (mava.systems.ppo.types), with the fields in the
    order of the constructor call at lines 131-139 and the names the loss
    functions read them by. The field types are parameters: one record type
    serves a single step, a single lane of a step and a stacked batch. *)
Record RNNPPOTransition (Done Action Value Reward LogProb Obs HStates : Type) :
  Type := {
  done : Done;
  action : Action;
  value : Value;
  reward : Reward;
  log_prob : LogProb;
  obs : Obs;
  hstates : HStates
}.

(** [HiddenStates]: the recurrent carries of the policy and of the critic. *)
Record HiddenStates (PolicyH CriticH : Type) : Type := {
  policy_hidden_state : PolicyH;
  critic_hidden_state : CriticH
}.

(** Elementwise binary operation on two arrays of one shape. *)
Fixpoint map2 (A B C : Type) (f : A -> B -> C) (l1 : list A) (l2 : list B) :
  list C :=
  match l1, l2 with
  | a :: l1', b :: l2' => f a b :: map2 f l1' l2'
  | _, _ => []
  end.

Lemma length_map2 (A B C : Type) (f : A -> B -> C) (l1 : list A) (l2 : list B) :
  length l1 = length l2 -> length (map2 f l1 l2) = length l1.
Proof.
  revert l2. induction l1 as [| a l1 IH]; intros [| b l2] Hlen; cbn in *;
    try discriminate; [reflexivity |]. f_equal. apply IH. lia.
Qed.

Lemma nth_map2 (A B C : Type) (f : A -> B -> C) (l1 : list A) (l2 : list B)
  (i : nat) (da : A) (db : B) (dc : C) :
  length l1 = length l2 -> i < length l1 ->
  nth i (map2 f l1 l2) dc = f (nth i l1 da) (nth i l2 db).
Proof.
  revert l2 i. induction l1 as [| a l1 IH]; intros [| b l2] i Hlen Hi; cbn in *;
    try discriminate; try lia.
  destruct i as [| i]; [reflexivity |]. apply IH; lia.
Qed.

Lemma nth_map_nth_error (A B : Type) (f : A -> B) (l : list A) (n : nat) (d : B) :
  nth n (map f l) d = match nth_error l n with Some a => f a | None => d end.
Proof.
  revert n. induction l as [| a l IH]; intros [| n]; cbn; auto.
Qed.

(** ** Generalised advantage estimation *)

Section Gae.

Local Open Scope R_scope.

Variables (Action LogProb Obs HStates : Type).

(** One (environment, agent) lane of a transition: the stored prior-done
    flag, value estimate and reward are scalars. The estimator acts
    elementwise on the arrays of a step, so a lane is all it sees. *)
Local Abbreviation Step := (RNNPPOTransition bool Action R R LogProb Obs HStates).

(** [1 - done], the flag read as 0 or 1. *)
Definition not_done (d : bool) : R := 1 - (if d then 1 else 0).

(** Modelled from the spec: [calculate_gae] of [mava.utils.multistep], which
    [_update_step] calls (lines 164-166) and which is not among the sources.
    Specification section 4.2: the window is processed in reverse temporal
    order with a running advantage that starts at zero; at each step the TD
    residual is [reward + gamma*(1-done)*next_value - value] and the running
    advantage becomes [residual + gamma*lambda*(1-done)*running_advantage].
    The next value of the last step is the bootstrap value and that of an
    earlier step is the stored value of the following transition. A
    transition stores the done flag from before its step, and the final done
    flags are an input of their own: the flag of a step is read like its
    next value, from the following transition, and from the final done flags
    at the last step. The carry is (running advantage, next value, done). *)
Definition gae_step (gamma gae_lambda : R) (transition : Step)
  (carry : R * R * bool) : R * R * bool :=
  let '(gae, next_value, next_done) := carry in
  let delta :=
    reward transition + gamma * not_done next_done * next_value
    - value transition in
  let gae := delta + gamma * gae_lambda * not_done next_done * gae in
  (gae, value transition, done transition).

(** Modelled from the spec: the window is processed in reverse temporal
    order, the running advantage starting at zero, the next value at the
    bootstrap value and the done flag at the final done flags; the
    advantages come out in the order of the window. *)
Fixpoint gae_scan (gamma gae_lambda : R) (traj_batch : list Step)
  (last_val : R) (last_done : bool) : (R * R * bool) * list R :=
  match traj_batch with
  | [] => ((0, last_val, last_done), [])
  | transition :: rest =>
      let '(carry, advantages) := gae_scan gamma gae_lambda rest last_val last_done in
      let carry' := gae_step gamma gae_lambda transition carry in
      (carry', fst (fst carry') :: advantages)
  end.

(** Modelled from the spec: the value targets are [advantage + value]. *)
Definition calculate_gae (traj_batch : list Step) (last_val : R)
  (last_done : bool) (gamma gae_lambda : R) : list R * list R :=
  let advantages := snd (gae_scan gamma gae_lambda traj_batch last_val last_done) in
  (advantages, map2 Rplus advantages (map (@value _ _ _ _ _ _ _) traj_batch)).

(** The next value of step [t]: the stored value of step [t+1], the
    bootstrap value at the last step. *)
Definition next_value_at (traj_batch : list Step) (last_val : R) (t : nat) : R :=
  match nth_error traj_batch (S t) with
  | Some following => value following
  | None => last_val
  end.

(** The done flag of step [t]: the prior-done flag stored by step [t+1], the
    final done flag at the last step. *)
Definition done_at (traj_batch : list Step) (last_done : bool) (t : nat) : bool :=
  match nth_error traj_batch (S t) with
  | Some following => done following
  | None => last_done
  end.

End Gae.

Section GaeFacts.

Local Open Scope R_scope.

Variables (Action LogProb Obs HStates : Type).
Local Abbreviation Step := (RNNPPOTransition bool Action R R LogProb Obs HStates).

Variables (gamma gae_lambda : R).

(** The advantages of a window, and the carry the scan leaves. *)
Local Abbreviation advantages_of traj last_val last_done :=
  (snd (gae_scan gamma gae_lambda traj last_val last_done)).

Lemma gae_scan_cons (transition : Step) (rest : list Step) (last_val : R)
  (last_done : bool) :
  gae_scan gamma gae_lambda (transition :: rest) last_val last_done
  = (gae_step gamma gae_lambda transition
       (fst (gae_scan gamma gae_lambda rest last_val last_done)),
     fst (fst (gae_step gamma gae_lambda transition
                 (fst (gae_scan gamma gae_lambda rest last_val last_done))))
     :: advantages_of rest last_val last_done).
Proof.
  cbn [gae_scan].
  destruct (gae_scan gamma gae_lambda rest last_val last_done) as [carry advs].
  reflexivity.
Qed.

(** What the scan carries to the left of a window: the advantage, the
    stored value and the stored done flag of the window's first step, or the
    initial carry when the window is empty. *)
Lemma gae_scan_carry (traj : list Step) (last_val : R) (last_done : bool) :
  fst (gae_scan gamma gae_lambda traj last_val last_done)
  = (nth 0 (advantages_of traj last_val last_done) 0,
     nth 0 (map (@value _ _ _ _ _ _ _) traj) last_val,
     nth 0 (map (@done _ _ _ _ _ _ _) traj) last_done).
Proof.
  destruct traj as [| transition rest]; [reflexivity |].
  rewrite gae_scan_cons. cbn [fst snd nth map].
  destruct (fst (gae_scan gamma gae_lambda rest last_val last_done)) as [[g v] d].
  reflexivity.
Qed.

Lemma length_advantages (traj : list Step) (last_val : R) (last_done : bool) :
  length (advantages_of traj last_val last_done) = length traj.
Proof.
  induction traj as [| transition rest IH]; [reflexivity |].
  rewrite gae_scan_cons. cbn [snd length]. now rewrite IH.
Qed.

(** The advantage of every step obeys the backward recursion. *)
Lemma advantage_recursion (traj : list Step) (last_val : R) (last_done : bool) :
  forall (t : nat) (transition : Step),
  nth_error traj t = Some transition ->
  nth t (advantages_of traj last_val last_done) 0
  = (reward transition
     + gamma * not_done (done_at traj last_done t) * next_value_at traj last_val t
     - value transition)
    + gamma * gae_lambda * not_done (done_at traj last_done t)
      * nth (S t) (advantages_of traj last_val last_done) 0.
Proof.
  induction traj as [| tr rest IH]; intros t transition Hnth.
  - destruct t; discriminate.
  - rewrite gae_scan_cons. cbn [snd]. destruct t as [| t].
    + injection Hnth as <-. rewrite gae_scan_carry.
      unfold gae_step, done_at, next_value_at. cbn [fst snd nth nth_error].
      now rewrite !nth_map_nth_error.
    + cbn [nth_error] in Hnth. cbn [nth].
      rewrite (IH t transition Hnth). unfold done_at, next_value_at.
      reflexivity.
Qed.

(** C2: the advantages and targets of [calculate_gae] satisfy the backward
    recursion. At every step [t] of the window, with [next_value] the
    bootstrap value at the last step and the following step's stored value
    otherwise, and with the running advantage that of the following step
    (zero after the last one, the two arrays being as long as the window):
    the TD residual is [reward + gamma*(1-done)*next_value - value], the
    advantage is [residual + gamma*gae_lambda*(1-done)*running_advantage],
    and the target is [advantage + value]. *)
Theorem calculate_gae_recursion (traj_batch : list Step) (last_val : R)
  (last_done : bool) (t : nat) (transition : Step) :
  nth_error traj_batch t = Some transition ->
  let advantages := fst (calculate_gae traj_batch last_val last_done gamma gae_lambda) in
  let targets := snd (calculate_gae traj_batch last_val last_done gamma gae_lambda) in
  let next_value := next_value_at traj_batch last_val t in
  let not_done := not_done (done_at traj_batch last_done t) in
  let running_advantage := nth (S t) advantages 0 in
  let residual :=
    reward transition + gamma * not_done * next_value - value transition in
  length advantages = length traj_batch /\
  length targets = length traj_batch /\
  nth t advantages 0 = residual + gamma * gae_lambda * not_done * running_advantage /\
  nth t targets 0 = nth t advantages 0 + value transition.
Proof.
  intros Hnth. cbv zeta. unfold calculate_gae. cbn [fst snd].
  pose proof (length_advantages traj_batch last_val last_done) as Hlen.
  assert (Ht : (t < length traj_batch)%nat).
  { apply nth_error_Some. congruence. }
  repeat split.
  - exact Hlen.
  - rewrite length_map2; [exact Hlen | now rewrite length_map].
  - now apply advantage_recursion.
  - rewrite (nth_map2 Rplus _ _ 0 0 0);
      [| now rewrite length_map | now rewrite Hlen].
    f_equal. now rewrite nth_map_nth_error, Hnth.
Qed.

(** C3: when the done flag of step [t] is set, the advantage of step [t] is
    [reward - value] of that step. Two windows that agree on the reward and
    the stored value of step [t] and both have its done flag set get the
    same advantage there, whatever they hold after step [t] (rewards,
    values, done flags, bootstrap value), whatever their lengths, and
    whatever they hold before it. *)
Theorem calculate_gae_done_isolation
  (traj_batch traj_batch' : list Step) (last_val last_val' : R)
  (last_done last_done' : bool) (t : nat) (transition transition' : Step) :
  nth_error traj_batch t = Some transition ->
  nth_error traj_batch' t = Some transition' ->
  reward transition = reward transition' ->
  value transition = value transition' ->
  done_at traj_batch last_done t = true ->
  done_at traj_batch' last_done' t = true ->
  nth t (fst (calculate_gae traj_batch last_val last_done gamma gae_lambda)) 0
  = nth t (fst (calculate_gae traj_batch' last_val' last_done' gamma gae_lambda)) 0
  /\
  nth t (fst (calculate_gae traj_batch last_val last_done gamma gae_lambda)) 0
  = reward transition - value transition.
Proof.
  intros Hnth Hnth' Hr Hv Hd Hd'. unfold calculate_gae. cbn [fst].
  rewrite (advantage_recursion traj_batch last_val last_done t Hnth).
  rewrite (advantage_recursion traj_batch' last_val' last_done' t Hnth').
  rewrite Hd, Hd', <- Hr, <- Hv. unfold not_done. split; ring.
Qed.

End GaeFacts.

(** *** A window of three steps *)

Section GaeExample.

Local Open Scope R_scope.

(** A lane with nothing but what the estimator reads. *)
Definition lane (d : bool) (v r : R) : RNNPPOTransition bool unit R R unit unit unit :=
  {| done := d; action := tt; value := v; reward := r; log_prob := tt;
     obs := tt; hstates := tt |}.

(** Rewards [1,1,1], no episode end, values [0.5, 0.6, 0.7]. *)
Definition window3 : list (RNNPPOTransition bool unit R R unit unit unit) :=
  [lane false 0.5 1; lane false 0.6 1; lane false 0.7 1].

(** With bootstrap value [0.8], [gamma = 0.99] and [gae_lambda = 0.95], the
    advantages are those of the closed-form backward recursion. *)
Example calculate_gae_window3 :
  calculate_gae window3 0.8 false 0.99 0.95
  = ([3.087884453; 2.120026; 1.092], [3.587884453; 2.720026; 1.792]).
Proof.
  unfold calculate_gae, window3. cbn. unfold not_done.
  repeat (f_equal; try lra).
Qed.

Lemma calculate_gae_recursion_witness :
  let advantages := fst (calculate_gae window3 0.8 false 0.99 0.95) in
  let targets := snd (calculate_gae window3 0.8 false 0.99 0.95) in
  let next_value := next_value_at window3 0.8 2 in
  let not_done := not_done (done_at window3 false 2) in
  let running_advantage := nth 3 advantages 0 in
  let residual := 1 + 0.99 * not_done * next_value - 0.7 in
  length advantages = 3%nat /\
  length targets = 3%nat /\
  nth 2 advantages 0 = residual + 0.99 * 0.95 * not_done * running_advantage /\
  nth 2 targets 0 = nth 2 advantages 0 + 0.7.
Proof.
  exact (calculate_gae_recursion 0.99 0.95 window3 0.8 false 2 eq_refl).
Defined.

(** An episode ends at step 0; what follows differs between the windows. *)
Lemma calculate_gae_done_isolation_witness :
  nth 0 (fst (calculate_gae [lane false 0.5 1; lane true 0.6 1; lane false 0.7 1]
                0.8 false 0.99 0.95)) 0
  = nth 0 (fst (calculate_gae [lane false 0.5 1; lane true 9 (-3)]
                  100 true 0.99 0.95)) 0
  /\
  nth 0 (fst (calculate_gae [lane false 0.5 1; lane true 0.6 1; lane false 0.7 1]
                0.8 false 0.99 0.95)) 0
  = 1 - 0.5.
Proof.
  exact (calculate_gae_done_isolation 0.99 0.95
           [lane false 0.5 1; lane true 0.6 1; lane false 0.7 1]
           [lane false 0.5 1; lane true 9 (-3)] 0.8 100 false true 0
           eq_refl eq_refl eq_refl eq_refl eq_refl eq_refl).
Defined.

End GaeExample.

(** ** Arrays of scalars *)

Section ScalarArrays.

Local Open Scope R_scope.

(** An array of scalars is the list of its elements in row-major order:
    the operations below are elementwise or reduce over all elements, so the
    shape plays no part. *)
Definition arr_add : list R -> list R -> list R := map2 Rplus.
Definition arr_sub : list R -> list R -> list R := map2 Rminus.
Definition arr_mul : list R -> list R -> list R := map2 Rmult.
Definition arr_minimum : list R -> list R -> list R := map2 Rmin.
Definition arr_maximum : list R -> list R -> list R := map2 Rmax.
Definition arr_neg : list R -> list R := map Ropp.
Definition arr_exp : list R -> list R := map exp.
Definition arr_square : list R -> list R := map (fun a => a * a).

(** [jnp.clip(a, lo, hi)] is [minimum(maximum(a, lo), hi)]. *)
Definition clip (a lo hi : R) : R := Rmin (Rmax a lo) hi.
Definition arr_clip (x : list R) (lo hi : R) : list R :=
  map (fun a => clip a lo hi) x.

Definition arr_sum (x : list R) : R := fold_right Rplus 0 x.

(** [x.mean()] *)
Definition mean (x : list R) : R := arr_sum x / INR (length x).

(** The variance [mean(|x - x.mean()|^2)] and [x.std()], its square root. *)
Definition variance (x : list R) : R :=
  mean (arr_square (map (fun a => a - mean x) x)).
Definition std (x : list R) : R := sqrt (variance x).

(** [(gae - gae.mean()) / (gae.std() + 1e-8)] (line 193). Over the reals
    the result has a mean of exactly zero; the program computes it in
    floating point, where the rounded mean of an array need not be the
    value its entries share ([0.1, 0.1, 0.1] is not normalised to zeros),
    so nothing below is stated about the mean or the variance of the
    result, apart from one input on which both agree. *)
Definition normalise_advantages (gae : list R) : list R :=
  map (fun a => a / (std gae + 1e-8)) (map (fun a => a - mean gae) gae).

(** The sum of [f 0 .. f (n-1)]. *)
Definition sum_upto (n : nat) (f : nat -> R) : R := arr_sum (map f (seq 0 n)).

End ScalarArrays.

(** ** The losses of [_update_minibatch] *)

Section Losses.

Local Open Scope R_scope.

(** Parameters, recurrent carries, the stacked observation, done and action
    arrays of a minibatch, action distributions and PRNG keys. *)
Variables (ActorParams CriticParams PolicyH CriticH : Type).
Variables (ObsArr DoneArr ActionArr RewardArr Policy Key : Type).

(** The networks: [apply(params, hidden_state, (observation, done))]. *)
Variable actor_apply_fn :
  ActorParams -> PolicyH -> ObsArr * DoneArr -> PolicyH * Policy.
Variable critic_apply_fn :
  CriticParams -> CriticH -> ObsArr * DoneArr -> CriticH * list R.

(** [actor_policy.log_prob(action)] and [actor_policy.entropy(seed=key)]. *)
Variable policy_log_prob : Policy -> ActionArr -> list R.
Variable policy_entropy : Policy -> Key -> list R.

(** [config.system.clip_eps], [ent_coef], [vf_coef]. *)
Variables (clip_eps ent_coef vf_coef : R).

(** A minibatch of transitions: every field is an array over (chunk step,
    batch position, agent); the hidden states are kept as the list of their
    snapshots along the leading (step) axis, which is what [[0]] indexes. *)
Local Abbreviation Minibatch :=
  (RNNPPOTransition DoneArr ActionArr (list R) RewardArr (list R) ObsArr
     (HiddenStates (list PolicyH) (list CriticH))).

(** Lines 176-209. *)
Definition _actor_loss_fn (actor_params : ActorParams) (traj_batch : Minibatch)
  (gae : list R) (key : Key) : Outcome (R * (R * R)) :=
  match policy_hidden_state (hstates traj_batch) with
  | [] => Raise IndexError
  | hstate0 :: _ =>
      let obs_and_done := (obs traj_batch, done traj_batch) in
      let '(_, actor_policy) := actor_apply_fn actor_params hstate0 obs_and_done in
      let log_prob' := policy_log_prob actor_policy (action traj_batch) in
      let ratio := arr_exp (arr_sub log_prob' (log_prob traj_batch)) in
      let gae := normalise_advantages gae in
      let actor_loss1 := arr_mul ratio gae in
      let actor_loss2 :=
        arr_mul (arr_clip ratio (1 - clip_eps) (1 + clip_eps)) gae in
      let actor_loss := arr_neg (arr_minimum actor_loss1 actor_loss2) in
      let actor_loss := mean actor_loss in
      let entropy := mean (policy_entropy actor_policy key) in
      let total_loss := actor_loss - ent_coef * entropy in
      Return (total_loss, (actor_loss, entropy))
  end.

(** Lines 211-232. *)
Definition _critic_loss_fn (critic_params : CriticParams) (traj_batch : Minibatch)
  (targets : list R) : Outcome (R * R) :=
  match critic_hidden_state (hstates traj_batch) with
  | [] => Raise IndexError
  | hstate0 :: _ =>
      let obs_and_done := (obs traj_batch, done traj_batch) in
      let '(_, value') := critic_apply_fn critic_params hstate0 obs_and_done in
      let value_pred_clipped :=
        arr_add (value traj_batch)
          (arr_clip (arr_sub value' (value traj_batch)) (- clip_eps) clip_eps) in
      let value_losses := arr_square (arr_sub value' targets) in
      let value_losses_clipped := arr_square (arr_sub value_pred_clipped targets) in
      let value_loss := 0.5 * mean (arr_maximum value_losses value_losses_clipped) in
      let total_loss := vf_coef * value_loss in
      Return (total_loss, value_loss)
  end.

End Losses.

(** ** Facts about arrays of scalars *)

Section ScalarFacts.

Local Open Scope R_scope.

Lemma nth_map_lt (A B : Type) (f : A -> B) (l : list A) (i : nat) (d : A) (d' : B) :
  (i < length l)%nat -> nth i (map f l) d' = f (nth i l d).
Proof.
  intros Hi. rewrite (nth_indep _ d' (f d)) by now rewrite length_map.
  apply map_nth.
Qed.

Lemma sum_upto_ext (n : nat) (f g : nat -> R) :
  (forall i, (i < n)%nat -> f i = g i) -> sum_upto n f = sum_upto n g.
Proof.
  intros Hfg. unfold sum_upto. f_equal. apply map_ext_in.
  intros i Hi. apply in_seq in Hi. apply Hfg. lia.
Qed.

Lemma arr_sum_map_opp (x : list R) : arr_sum (map Ropp x) = - arr_sum x.
Proof.
  unfold arr_sum. induction x as [| a x IH]; cbn; [ring | rewrite IH; ring].
Qed.

Lemma sum_upto_opp (n : nat) (f : nat -> R) :
  sum_upto n (fun i => - f i) = - sum_upto n f.
Proof.
  unfold sum_upto. rewrite <- arr_sum_map_opp, map_map. reflexivity.
Qed.

(** The sum of an array is the sum of its entries by index. *)
Lemma arr_sum_by_index (x : list R) :
  arr_sum x = sum_upto (length x) (fun i => nth i x 0).
Proof. unfold sum_upto. now rewrite map_nth_seq. Qed.

Lemma nth_normalise_advantages (gae : list R) (i : nat) :
  (i < length gae)%nat ->
  nth i (normalise_advantages gae) 0
  = (nth i gae 0 - mean gae) / (std gae + 1e-8).
Proof.
  intros Hi. unfold normalise_advantages.
  rewrite (nth_map_lt _ _ 0) by now rewrite length_map.
  now rewrite (nth_map_lt _ _ 0).
Qed.

Lemma length_normalise_advantages (gae : list R) :
  length (normalise_advantages gae) = length gae.
Proof. unfold normalise_advantages. now rewrite !length_map. Qed.

Lemma arr_sum_squares_nonneg (f : R -> R) (x : list R) :
  0 <= arr_sum (map (fun a => f a * f a) x).
Proof.
  unfold arr_sum. induction x as [| a x IH]; cbn; [lra | nra].
Qed.

(** X5: at a ratio of exactly [1 + eps] or [1 - eps] the clipped and the
    unclipped surrogate terms coincide. *)
Lemma clipped_ratio_boundary (eps A : R) :
  0 <= eps ->
  clip (1 + eps) (1 - eps) (1 + eps) * A = (1 + eps) * A /\
  clip (1 - eps) (1 - eps) (1 + eps) * A = (1 - eps) * A.
Proof.
  intros Heps. unfold clip, Rmin, Rmax.
  split; repeat destruct Rle_dec; f_equal; lra.
Qed.

Lemma clipped_ratio_boundary_witness :
  clip (1 + 0.2) (1 - 0.2) (1 + 0.2) * 3 = (1 + 0.2) * 3 /\
  clip (1 - 0.2) (1 - 0.2) (1 + 0.2) * 3 = (1 - 0.2) * 3.
Proof. apply clipped_ratio_boundary. lra. Defined.

(** The advantages [1, 1], whose mean is exactly 1 in floating point as
    well, are normalised to zeros. *)
Lemma normalise_constant_advantages :
  normalise_advantages [1; 1] = [0; 0].
Proof.
  unfold normalise_advantages. cbn [map].
  replace (1 - mean [1; 1]) with 0 by (unfold mean, arr_sum; cbn; lra).
  unfold Rdiv. now rewrite Rmult_0_l.
Qed.

End ScalarFacts.

(** *** Entries of elementwise results *)

Create HintDb arr discriminated.

Lemma length_map_eq (A B : Type) (f : A -> B) (l : list A) (n : nat) :
  length l = n -> length (map f l) = n.
Proof. intros <-. apply length_map. Qed.

Lemma length_map2_eq (A B C : Type) (f : A -> B -> C) (l1 : list A) (l2 : list B)
  (n : nat) :
  length l1 = n -> length l2 = n -> length (map2 f l1 l2) = n.
Proof. intros <- H2. now apply length_map2. Qed.

Lemma nth_map_eq (A B : Type) (f : A -> B) (l : list A) (n i : nat) (d : A) (d' : B) :
  length l = n -> i < n -> nth i (map f l) d' = f (nth i l d).
Proof. intros <- Hi. now apply nth_map_lt. Qed.

Lemma nth_map2_eq (A B C : Type) (f : A -> B -> C) (l1 : list A) (l2 : list B)
  (n i : nat) (da : A) (db : B) (dc : C) :
  length l1 = n -> length l2 = n -> i < n ->
  nth i (map2 f l1 l2) dc = f (nth i l1 da) (nth i l2 db).
Proof. intros <- H2 Hi. now apply nth_map2. Qed.

#[local] Hint Resolve length_map_eq length_map2_eq : arr.

(** Reads an entry of a nest of elementwise operations through to the
    entries of the arrays at its leaves, all of length [n]. *)
Ltac arr_nth n :=
  unfold arr_add, arr_sub, arr_mul, arr_minimum, arr_maximum, arr_neg,
    arr_exp, arr_square, arr_clip;
  repeat first
    [ rewrite (@nth_map2_eq R R R _ _ _ n _ 0%R 0%R 0%R) by auto 20 with arr
    | rewrite (@nth_map_eq R R _ _ n _ 0%R 0%R) by auto 20 with arr ].

Section LossFacts.

Local Open Scope R_scope.

Variables (ActorParams CriticParams PolicyH CriticH : Type).
Variables (ObsArr DoneArr ActionArr RewardArr Policy Key : Type).
Variable actor_apply_fn :
  ActorParams -> PolicyH -> ObsArr * DoneArr -> PolicyH * Policy.
Variable critic_apply_fn :
  CriticParams -> CriticH -> ObsArr * DoneArr -> CriticH * list R.
Variable policy_log_prob : Policy -> ActionArr -> list R.
Variable policy_entropy : Policy -> Key -> list R.
Variables (clip_eps ent_coef vf_coef : R).

Local Abbreviation Minibatch :=
  (RNNPPOTransition DoneArr ActionArr (list R) RewardArr (list R) ObsArr
     (HiddenStates (list PolicyH) (list CriticH))).

(** A clipped difference stays within the clipping range. *)
Lemma clip_within (a eps : R) : 0 <= eps -> Rabs (clip a (- eps) eps) <= eps.
Proof.
  intros Heps. unfold clip, Rmin, Rmax.
  apply Rabs_le. repeat destruct Rle_dec; lra.
Qed.

(** C5: the critic loss re-evaluates the value with the first stored critic
    hidden state, clips the new value to within [clip_eps] of the stored
    value ([old + clip(new - old, -clip_eps, +clip_eps)]), takes per element
    the larger of the squared errors of the unclipped and of the clipped
    value against the target, averages, multiplies by 0.5, and scales the
    total by [vf_coef]. *)
Theorem _critic_loss_fn_spec (critic_params : CriticParams)
  (traj_batch : Minibatch) (targets : list R) (hstate0 : CriticH)
  (later : list CriticH) :
  critic_hidden_state (hstates traj_batch) = hstate0 :: later ->
  let new_value :=
    snd (critic_apply_fn critic_params hstate0 (obs traj_batch, done traj_batch)) in
  let old_value := value traj_batch in
  let n := length targets in
  length new_value = n -> length old_value = n ->
  let clipped i :=
    nth i old_value 0
    + clip (nth i new_value 0 - nth i old_value 0) (- clip_eps) clip_eps in
  let value_loss :=
    0.5 * (sum_upto n (fun i =>
             Rmax (Rsqr (nth i new_value 0 - nth i targets 0))
                  (Rsqr (clipped i - nth i targets 0))) / INR n) in
  _critic_loss_fn critic_apply_fn clip_eps vf_coef critic_params traj_batch targets
    = Return (vf_coef * value_loss, value_loss)
  /\ (0 <= clip_eps ->
      forall i, Rabs (clipped i - nth i old_value 0) <= clip_eps).
Proof.
  intros Hh new_value old_value n Hnew Hold clipped value_loss. split.
  - unfold _critic_loss_fn. rewrite Hh.
    subst new_value value_loss.
    destruct (critic_apply_fn critic_params hstate0 (obs traj_batch, done traj_batch))
      as [h value'].
    cbn [snd] in *. fold old_value.
    assert (Hloss :
      mean (arr_maximum (arr_square (arr_sub value' targets))
              (arr_square
                 (arr_sub
                    (arr_add old_value
                       (arr_clip (arr_sub value' old_value) (- clip_eps) clip_eps))
                    targets)))
      = sum_upto n (fun i =>
          Rmax (Rsqr (nth i value' 0 - nth i targets 0))
               (Rsqr (clipped i - nth i targets 0))) / INR n).
    { unfold mean. rewrite arr_sum_by_index.
      assert (Hlen : forall x, length x = n ->
                length (arr_maximum (arr_square (arr_sub value' targets)) x) = n).
      { intros x Hx. unfold arr_maximum, arr_square, arr_sub. auto with arr. }
      rewrite Hlen by (unfold arr_square, arr_sub, arr_add, arr_clip; auto 20 with arr).
      f_equal. apply sum_upto_ext. intros i Hi.
      arr_nth n. reflexivity. }
    rewrite Hloss. reflexivity.
  - intros Heps i. subst clipped. cbv beta.
    replace (nth i old_value 0
             + clip (nth i new_value 0 - nth i old_value 0) (- clip_eps) clip_eps
             - nth i old_value 0)
      with (clip (nth i new_value 0 - nth i old_value 0) (- clip_eps) clip_eps)
      by ring.
    now apply clip_within.
Qed.

(** C4, as the code has it: for a non-empty minibatch the actor loss
    re-evaluates the action distribution with the first stored policy
    hidden state, forms the ratio [exp(new_log_prob - old_log_prob)],
    normalises the advantages within the minibatch entry by entry as
    [(A - mean A) / (std A + 1e-8)], takes
    [-mean(min(ratio*A, clip(ratio, 1-clip_eps, 1+clip_eps)*A))] and
    subtracts [ent_coef] times the mean entropy of the re-evaluated
    distribution. *)
Theorem _actor_loss_fn_spec (actor_params : ActorParams) (traj_batch : Minibatch)
  (gae : list R) (key : Key) (hstate0 : PolicyH) (later : list PolicyH) :
  policy_hidden_state (hstates traj_batch) = hstate0 :: later ->
  let actor_policy :=
    snd (actor_apply_fn actor_params hstate0 (obs traj_batch, done traj_batch)) in
  let new_log_prob := policy_log_prob actor_policy (action traj_batch) in
  let old_log_prob := log_prob traj_batch in
  let n := length gae in
  gae <> [] -> length new_log_prob = n -> length old_log_prob = n ->
  let A := normalise_advantages gae in
  let ratio i := exp (nth i new_log_prob 0 - nth i old_log_prob 0) in
  let actor_loss :=
    - (sum_upto n (fun i =>
         Rmin (ratio i * nth i A 0)
              (clip (ratio i) (1 - clip_eps) (1 + clip_eps) * nth i A 0)) / INR n) in
  let entropy := mean (policy_entropy actor_policy key) in
  _actor_loss_fn actor_apply_fn policy_log_prob policy_entropy clip_eps ent_coef
    actor_params traj_batch gae key
    = Return (actor_loss - ent_coef * entropy, (actor_loss, entropy))
  /\ (forall i, (i < n)%nat ->
       nth i A 0 = (nth i gae 0 - mean gae) / (std gae + 1e-8)).
Proof.
  intros Hh actor_policy new_log_prob old_log_prob n Hne Hnew Hold A ratio
    actor_loss entropy.
  split.
  - unfold _actor_loss_fn. rewrite Hh.
    subst entropy actor_loss ratio new_log_prob actor_policy.
    destruct (actor_apply_fn actor_params hstate0 (obs traj_batch, done traj_batch))
      as [h policy].
    cbn [snd] in *. fold old_log_prob. fold A.
    set (log_prob' := policy_log_prob policy (action traj_batch)) in *.
    assert (HA : length A = n) by apply length_normalise_advantages.
    assert (Hloss :
      mean (arr_neg
              (arr_minimum
                 (arr_mul (arr_exp (arr_sub log_prob' old_log_prob)) A)
                 (arr_mul
                    (arr_clip (arr_exp (arr_sub log_prob' old_log_prob))
                       (1 - clip_eps) (1 + clip_eps)) A)))
      = - (sum_upto n (fun i =>
             Rmin (exp (nth i log_prob' 0 - nth i old_log_prob 0) * nth i A 0)
                  (clip (exp (nth i log_prob' 0 - nth i old_log_prob 0))
                     (1 - clip_eps) (1 + clip_eps) * nth i A 0)) / INR n)).
    { unfold mean. rewrite arr_sum_by_index.
      assert (Hlen :
        length (arr_neg
                  (arr_minimum
                     (arr_mul (arr_exp (arr_sub log_prob' old_log_prob)) A)
                     (arr_mul
                        (arr_clip (arr_exp (arr_sub log_prob' old_log_prob))
                           (1 - clip_eps) (1 + clip_eps)) A))) = n).
      { unfold arr_neg, arr_minimum, arr_mul, arr_exp, arr_sub, arr_clip.
        auto 20 with arr. }
      rewrite Hlen.
      rewrite (@sum_upto_ext n _ (fun i =>
        - Rmin (exp (nth i log_prob' 0 - nth i old_log_prob 0) * nth i A 0)
               (clip (exp (nth i log_prob' 0 - nth i old_log_prob 0))
                  (1 - clip_eps) (1 + clip_eps) * nth i A 0))).
      - rewrite sum_upto_opp. unfold Rdiv. ring.
      - intros i Hi. arr_nth n. reflexivity. }
    rewrite Hloss. reflexivity.
  - intros i Hi. now apply nth_normalise_advantages.
Qed.

End LossFacts.

(** The clause of C4 on the normalisation, refuted: the advantages that
    enter the surrogate do not have unit variance. For the advantages
    [1, 1] they are [0, 0], of variance zero. *)
Lemma normalised_advantages_not_unit_variance :
  variance (normalise_advantages [1; 1]%R) <> 1%R.
Proof.
  rewrite normalise_constant_advantages.
  unfold variance, mean, arr_square, arr_sum. cbn. lra.
Qed.

(** *** A minibatch of two entries *)

Section LossExample.

Local Open Scope R_scope.

(** Two stored snapshots per carry (here numbers, to tell them apart);
    stored values [0.9, 2.5] and stored log-probabilities [0, 0]. *)
Definition minibatch2 :
  RNNPPOTransition unit unit (list R) unit (list R) unit
    (HiddenStates (list nat) (list nat)) :=
  {| done := tt; action := tt; value := [0.9; 2.5]; reward := tt;
     log_prob := [0; 0]; obs := tt;
     hstates := {| policy_hidden_state := [7; 8]%nat;
                   critic_hidden_state := [3; 4]%nat |} |}.

(** Stand-ins for the networks: the policy is the carry it was started
    from, and so is the first new value. *)
Definition actor2 (_ : unit) (h : nat) (_ : unit * unit) : nat * nat := (h, h).
Definition critic2 (_ : unit) (h : nat) (_ : unit * unit) : nat * list R :=
  (h, [INR h; 2]).
Definition log_prob2 (_ : nat) (_ : unit) : list R := [0; 0].
Definition entropy2 (p : nat) (_ : unit) : list R := [INR p; INR p].

Lemma _critic_loss_fn_spec_witness :
  let new_value := snd (critic2 tt 3%nat (tt, tt)) in
  let old_value := [0.9; 2.5] in
  let clipped i :=
    nth i old_value 0 + clip (nth i new_value 0 - nth i old_value 0) (- (0.2)) 0.2 in
  let value_loss :=
    0.5 * (sum_upto 2 (fun i =>
             Rmax (Rsqr (nth i new_value 0 - nth i [1; 1] 0))
                  (Rsqr (clipped i - nth i [1; 1] 0))) / INR 2) in
  _critic_loss_fn critic2 0.2 0.5 tt minibatch2 [1; 1]
    = Return (0.5 * value_loss, value_loss)
  /\ (0 <= 0.2 -> forall i, Rabs (clipped i - nth i old_value 0) <= 0.2).
Proof.
  exact (@_critic_loss_fn_spec unit nat nat unit unit unit unit critic2 0.2 0.5
           tt minibatch2 [1; 1] 3%nat [4%nat] eq_refl eq_refl eq_refl).
Defined.

Lemma _actor_loss_fn_spec_witness :
  let A := normalise_advantages [1; 3] in
  let ratio i := exp (nth i (log_prob2 7 tt) 0 - nth i [0; 0] 0) in
  let actor_loss :=
    - (sum_upto 2 (fun i =>
         Rmin (ratio i * nth i A 0)
              (clip (ratio i) (1 - 0.2) (1 + 0.2) * nth i A 0)) / INR 2) in
  let entropy := mean (entropy2 7 tt) in
  _actor_loss_fn actor2 log_prob2 entropy2 0.2 0.01 tt minibatch2 [1; 3] tt
    = Return (actor_loss - 0.01 * entropy, (actor_loss, entropy))
  /\ (forall i, (i < 2)%nat ->
       nth i A 0 = (nth i [1; 3] 0 - mean [1; 3]) / (std [1; 3] + 1e-8)).
Proof.
  refine (@_actor_loss_fn_spec unit nat nat unit unit unit unit nat unit
            actor2 log_prob2 entropy2 0.2 0.01 tt minibatch2 [1; 3] tt 7%nat
            [8%nat] eq_refl _ eq_refl eq_refl).
  discriminate.
Defined.

End LossExample.

(** ** The rollout step [_env_step] (lines 92-144) *)

(** [Params] and [RNNLearnerState] (mava.systems.ppo.types), the latter with
    the field names of the constructor call at lines 526-534; its hidden
    states are [learner_hstates] here, [hstates] being the transition's. *)
Record Params (ActorParams CriticParams : Type) : Type := {
  actor_params : ActorParams;
  critic_params : CriticParams
}.

Record RNNLearnerState (P OptStates Key EnvState TimeStep Done HStates : Type) :
  Type := {
  params : P;
  opt_states : OptStates;
  key : Key;
  env_state : EnvState;
  timestep : TimeStep;
  dones : Done;
  learner_hstates : HStates
}.

(** [x.squeeze(0)]: drops a leading axis of extent one, and raises on any
    other extent. *)
Definition squeeze0 (A : Type) (x : list A) : Outcome A :=
  match x with
  | [a] => Return a
  | _ => Raise ValueError
  end.

(** [last.repeat(num_agents).reshape(num_envs, -1)]: every flag repeated
    [num_agents] times in place, and the flat result cut into [num_envs]
    rows; raises when the rows do not come out even. *)
Definition repeat_reshape (num_agents n_envs : nat) (last : list bool) :
  Outcome (list (list bool)) :=
  let flat := flat_map (fun b => repeat b num_agents) last in
  if (n_envs =? 0) || negb (length flat mod n_envs =? 0) then Raise ValueError
  else Return (chunks (length flat / n_envs) flat n_envs).

Section Rollout.

Variables (ActorParams CriticParams OptStates Key EnvState TimeStep : Type).
Variables (Obs Action Value Reward LogProb PolicyH CriticH Policy Metrics : Type).

(** The done flags of a step: one row of agents per environment. *)
Local Abbreviation Done := (list (list bool)).
Local Abbreviation HStates := (HiddenStates PolicyH CriticH).
Local Abbreviation LearnerState :=
  (RNNLearnerState (Params ActorParams CriticParams) OptStates Key EnvState
     TimeStep Done HStates).
Local Abbreviation Transition :=
  (RNNPPOTransition Done Action Value Reward LogProb Obs HStates).

(** [jax.random.split(key)] *)
Variable split : Key -> Key * Key.

(** The networks take the observation and the done flags with a leading
    sequence axis, and answer with one. *)
Variable actor_apply_fn :
  ActorParams -> PolicyH -> list Obs * list Done -> PolicyH * Policy.
Variable critic_apply_fn :
  CriticParams -> CriticH -> list Obs * list Done -> CriticH * list Value.
Variable policy_sample : Policy -> Key -> list Action.
Variable policy_log_prob : Policy -> list Action -> list LogProb.

(** [jax.vmap(env.step, in_axes=(0, 0))], and what is read from a timestep:
    [observation], [reward], [last()] (one flag per environment), and the
    merged [extras["episode_metrics"] | extras["env_metrics"]]. *)
Variable env_step : EnvState -> Action -> EnvState * TimeStep.
Variable observation : TimeStep -> Obs.
Variable timestep_reward : TimeStep -> Reward.
Variable last : TimeStep -> list bool.
Variable timestep_metrics : TimeStep -> Metrics.

(** [env.num_agents] and [config.arch.num_envs]. *)
Variables (num_agents n_envs : nat).

Definition _env_step (learner_state : LearnerState) :
  Outcome (LearnerState * (Transition * Metrics)) :=
  let last_timestep := timestep learner_state in
  let last_done := dones learner_state in
  let last_hstates := learner_hstates learner_state in
  let '(key', policy_key) := split (key learner_state) in
  (* Add a batch dimension to the observation. *)
  let batched_observation := [observation last_timestep] in
  let ac_in := (batched_observation, [last_done]) in
  (* Run the network. *)
  let '(policy_hidden_state', actor_policy) :=
    actor_apply_fn (actor_params (params learner_state))
      (policy_hidden_state last_hstates) ac_in in
  let '(critic_hidden_state', value') :=
    critic_apply_fn (critic_params (params learner_state))
      (critic_hidden_state last_hstates) ac_in in
  (* Sample action from the policy and squeeze out the batch dimension. *)
  let action' := policy_sample actor_policy policy_key in
  let log_prob' := policy_log_prob actor_policy action' in
  action' <- squeeze0 action' ;;
  log_prob' <- squeeze0 log_prob' ;;
  value' <- squeeze0 value' ;;
  (* Step the environment. *)
  let '(env_state', timestep') := env_step (env_state learner_state) action' in
  done' <- repeat_reshape num_agents n_envs (last timestep') ;;
  let hstates' :=
    {| policy_hidden_state := policy_hidden_state';
       critic_hidden_state := critic_hidden_state' |} in
  let transition :=
    {| done := last_done; action := action'; value := value';
       reward := timestep_reward timestep'; log_prob := log_prob';
       obs := observation last_timestep; hstates := last_hstates |} in
  let learner_state' :=
    {| params := params learner_state; opt_states := opt_states learner_state;
       key := key'; env_state := env_state'; timestep := timestep';
       dones := done'; learner_hstates := hstates' |} in
  let metrics := timestep_metrics timestep' in
  Return (learner_state', (transition, metrics)).

End Rollout.

(** The new done flag is "episode ended", broadcast across all agents. *)
Lemma repeat_reshape_broadcast (num_agents n_envs : nat) (last : list bool) :
  length last = n_envs -> 0 < n_envs ->
  repeat_reshape num_agents n_envs last
  = Return (map (fun b => repeat b num_agents) last).
Proof.
  intros Hlen Hpos. unfold repeat_reshape. rewrite flat_map_concat_map.
  set (rows := map (fun b => repeat b num_agents) last).
  assert (Hrows : Forall (fun row => length row = num_agents) rows).
  { apply Forall_forall. intros row Hin. apply in_map_iff in Hin as [b [<- _]].
    apply repeat_length. }
  assert (Hshape : shape2 n_envs num_agents rows).
  { split; [unfold rows; now rewrite length_map | exact Hrows]. }
  rewrite (length_concat_shape Hshape), (Nat.mul_comm n_envs num_agents).
  rewrite Nat.Div0.mod_mul, Nat.div_mul by lia.
  destruct (Nat.eqb_spec n_envs 0); [lia |]. cbn [orb negb Nat.eqb].
  f_equal. destruct Hshape as [Hl _]. rewrite <- Hl. now apply chunks_concat.
Qed.

(** X6: the done flags [_env_step] computes (line 129): for every
    environment, its termination flag once per agent. *)
Lemma new_done_broadcasts_last (num_agents n_envs : nat) (last : list bool)
  (e a : nat) :
  length last = n_envs -> 0 < n_envs -> e < n_envs -> a < num_agents ->
  exists done',
    repeat_reshape num_agents n_envs last = Return done' /\
    shape2 n_envs num_agents done' /\
    nth a (nth e done' []) false = nth e last false.
Proof.
  intros Hlen Hpos He Ha. eexists. split; [now apply repeat_reshape_broadcast |].
  split.
  - split; [now rewrite length_map |].
    apply Forall_forall. intros row Hin. apply in_map_iff in Hin as [b [<- _]].
    apply repeat_length.
  - rewrite (nth_indep _ [] (repeat false num_agents)) by (rewrite length_map; lia).
    rewrite (map_nth (fun b => repeat b num_agents)).
    apply nth_repeat_lt. assumption.
Qed.

Lemma new_done_broadcasts_last_witness :
  exists done',
    repeat_reshape 3 2 [false; true] = Return done' /\
    shape2 2 3 done' /\
    nth 2 (nth 1 done' []) false = nth 1 [false; true] false.
Proof.
  apply new_done_broadcasts_last; try reflexivity; lia.
Defined.

Section RolloutFacts.

Variables (ActorParams CriticParams OptStates Key EnvState TimeStep : Type).
Variables (Obs Action Value Reward LogProb PolicyH CriticH Policy Metrics : Type).
Variable split : Key -> Key * Key.
Variable actor_apply_fn :
  ActorParams -> PolicyH -> list Obs * list (list (list bool)) -> PolicyH * Policy.
Variable critic_apply_fn :
  CriticParams -> CriticH -> list Obs * list (list (list bool)) ->
  CriticH * list Value.
Variable policy_sample : Policy -> Key -> list Action.
Variable policy_log_prob : Policy -> list Action -> list LogProb.
Variable env_step : EnvState -> Action -> EnvState * TimeStep.
Variable observation : TimeStep -> Obs.
Variable timestep_reward : TimeStep -> Reward.
Variable last : TimeStep -> list bool.
Variable timestep_metrics : TimeStep -> Metrics.
Variables (num_agents n_envs : nat).

Local Abbreviation env_step_fn :=
  (@_env_step ActorParams CriticParams OptStates Key EnvState TimeStep Obs Action
     Value Reward LogProb PolicyH CriticH Policy Metrics split actor_apply_fn
     critic_apply_fn policy_sample policy_log_prob env_step observation
     timestep_reward last timestep_metrics num_agents n_envs).

(** C9: when the networks answer with a sequence axis of extent one and the
    environments report one termination flag each, [_env_step] returns, and

    - the transition it records holds the hidden states, the done flags and
      the observation of the learner state it was given (the ones from
      before the networks ran and the environments stepped), next to the
      sampled action, its log-probability, the value estimate and the reward
      of the new timestep;
    - the learner state it returns holds the hidden states the networks
      returned, the new environment state, the new timestep and the new done
      flags (the termination flag of each environment, for every agent),
      with the parameters and optimiser states unchanged and the PRNG key
      advanced. *)
Theorem _env_step_pre_and_post
  (learner_state : RNNLearnerState (Params ActorParams CriticParams) OptStates
                     Key EnvState TimeStep (list (list bool))
                     (HiddenStates PolicyH CriticH))
  (a : Action) (lp : LogProb) (v : Value) :
  let pre := learner_hstates learner_state in
  let policy_key := snd (split (key learner_state)) in
  let ac_in := ([observation (timestep learner_state)], [dones learner_state]) in
  let actor_out :=
    actor_apply_fn (actor_params (params learner_state))
      (policy_hidden_state pre) ac_in in
  let critic_out :=
    critic_apply_fn (critic_params (params learner_state))
      (critic_hidden_state pre) ac_in in
  let stepped := env_step (env_state learner_state) a in
  policy_sample (snd actor_out) policy_key = [a] ->
  policy_log_prob (snd actor_out) [a] = [lp] ->
  snd critic_out = [v] ->
  length (last (snd stepped)) = n_envs -> 0 < n_envs ->
  exists learner_state' transition metrics,
    env_step_fn learner_state = Return (learner_state', (transition, metrics)) /\
    (hstates transition = pre /\
     done transition = dones learner_state /\
     obs transition = observation (timestep learner_state) /\
     action transition = a /\ log_prob transition = lp /\
     value transition = v /\
     reward transition = timestep_reward (snd stepped)) /\
    (learner_hstates learner_state'
       = {| policy_hidden_state := fst actor_out;
            critic_hidden_state := fst critic_out |} /\
     env_state learner_state' = fst stepped /\
     timestep learner_state' = snd stepped /\
     dones learner_state'
       = map (fun b => repeat b num_agents) (last (snd stepped)) /\
     params learner_state' = params learner_state /\
     opt_states learner_state' = opt_states learner_state /\
     key learner_state' = fst (split (key learner_state))) /\
    metrics = timestep_metrics (snd stepped).
Proof.
  intros pre policy_key ac_in actor_out critic_out stepped
    Hsample Hlogp Hvalue Hlast Hpos.
  unfold _env_step.
  subst pre policy_key ac_in actor_out critic_out stepped.
  destruct (split (key learner_state)) as [key' policy_key].
  destruct (actor_apply_fn _ _ _) as [policy_h actor_policy].
  destruct (critic_apply_fn _ _ _) as [critic_h value'].
  cbn [fst snd] in *. subst value'. rewrite Hsample, Hlogp. cbn [squeeze0 bind].
  destruct (env_step (env_state learner_state) a) as [env_state' timestep'].
  cbn [fst snd] in *.
  rewrite (@repeat_reshape_broadcast num_agents n_envs _ Hlast Hpos). cbn [bind].
  do 3 eexists. split; [reflexivity |]. cbn. repeat split.
Qed.

End RolloutFacts.

(** *** One step of two environments with three agents *)

Section RolloutExample.

(** Stand-ins with numbers for keys, states, carries and outputs: the
    networks hand on the successor of the carry they were given. *)
Definition split_ex (k : nat) : nat * nat := (2 * k, 2 * k + 1).
Definition actor_ex (_ : unit) (h : nat) (_ : list nat * list (list (list bool))) :
  nat * nat := (S h, h).
Definition critic_ex (_ : unit) (h : nat) (_ : list nat * list (list (list bool))) :
  nat * list nat := (S h, [h]).
Definition sample_ex (p k : nat) : list nat := [p + k].
Definition log_prob_ex (p : nat) (_ : list nat) : list nat := [p].
Definition env_step_ex (s a : nat) : nat * nat := (S s, s + a).
Definition last_ex (t : nat) : list bool := [false; true].

Definition learner_state_ex :
  RNNLearnerState (Params unit unit) unit nat nat nat (list (list bool))
    (HiddenStates nat nat) :=
  {| params := {| actor_params := tt; critic_params := tt |};
     opt_states := tt; key := 5; env_state := 0; timestep := 40;
     dones := [[false; false; false]; [false; false; false]];
     learner_hstates := {| policy_hidden_state := 10; critic_hidden_state := 20 |} |}.

Definition env_step_fn_ex :=
  @_env_step unit unit unit nat nat nat nat nat nat nat nat nat nat nat unit
    split_ex actor_ex critic_ex sample_ex log_prob_ex env_step_ex
    (fun t => t) (fun t => t) last_ex (fun _ => tt) 3 2.

Lemma _env_step_pre_and_post_witness :
  exists learner_state' transition,
    env_step_fn_ex learner_state_ex = Return (learner_state', (transition, tt)) /\
    hstates transition
      = {| policy_hidden_state := 10; critic_hidden_state := 20 |} /\
    done transition = [[false; false; false]; [false; false; false]] /\
    obs transition = 40 /\
    learner_hstates learner_state'
      = {| policy_hidden_state := 11; critic_hidden_state := 21 |} /\
    dones learner_state' = [[false; false; false]; [true; true; true]].
Proof.
  destruct (@_env_step_pre_and_post unit unit unit nat nat nat nat nat nat nat
              nat nat nat nat unit split_ex actor_ex critic_ex sample_ex
              log_prob_ex env_step_ex (fun t => t) (fun t => t) last_ex
              (fun _ => tt) 3 2 learner_state_ex 21 10 20
              eq_refl eq_refl eq_refl eq_refl (le_n_S 0 1 (le_S 0 0 (le_n 0))))
    as [learner_state' [transition [metrics [Hrun [Htr [Hls Hm]]]]]].
  exists learner_state', transition. destruct metrics.
  destruct Htr as [Hh [Hd [Ho _]]]. destruct Hls as [Hh' [_ [_ [Hd' _]]]].
  repeat split; assumption.
Defined.

End RolloutExample.

(** ** Gradient synchronisation in [_update_minibatch] (lines 234-293) *)

(** [OptStates] (mava.systems.ppo.types). *)
Record OptStates (ActorOpt CriticOpt : Type) : Type := {
  actor_opt_state : ActorOpt;
  critic_opt_state : CriticOpt
}.

(** The entries of [loss_info]. *)
Record LossInfo : Type := {
  total_loss : R;
  value_loss : R;
  actor_loss : R;
  entropy : R
}.

(** The two named axes the learner is mapped over: [jax.vmap(...,
    axis_name="batch")] inside [jax.pmap(..., axis_name="device")]. *)
Inductive Axis : Type := batch_axis | device_axis.

(** What every replica holds of some value: replica [(d, b)] is slot [b] of
    the batch axis on device [d]. *)
Definition Replicated (X : Type) : Type := nat -> nat -> X.

Section Sync.

(** The extents of the device and of the batch axis. *)
Variables (n_devices update_batch_size : nat).

(** [jax.lax.pmean(x, axis_name)]: every replica gets the mean of [x] over
    the replicas that differ from it along the named axis only. The mean of
    a list of trees is a parameter. *)
Definition pmean (X : Type) (tree_mean : list X -> X) (axis_name : Axis)
  (x : Replicated X) : Replicated X :=
  match axis_name with
  | batch_axis =>
      fun d _ => tree_mean (map (fun b' => x d b') (seq 0 update_batch_size))
  | device_axis =>
      fun _ b => tree_mean (map (fun d' => x d' b) (seq 0 n_devices))
  end.

Variables (ActorParams CriticParams ActorOpt CriticOpt Key : Type).
Variables (ActorGrads CriticGrads : Type).

(** A minibatch [(traj_batch, advantages, targets)]. *)
Variable BatchInfo : Type.

Local Abbreviation TrainState :=
  (Params ActorParams CriticParams * OptStates ActorOpt CriticOpt * Key)%type.

Variable split : Key -> Key * Key.

(** [jax.value_and_grad(_actor_loss_fn, has_aux=True)] and its critic
    counterpart: the loss with its auxiliary outputs, and the gradients. *)
Variable actor_grad_fn :
  ActorParams -> BatchInfo -> Key -> (R * (R * R)) * ActorGrads.
Variable critic_grad_fn : CriticParams -> BatchInfo -> (R * R) * CriticGrads.

(** The mean of the trees [(grads, loss_info)] of several replicas. *)
Variable actor_mean : list (ActorGrads * (R * (R * R))) -> ActorGrads * (R * (R * R)).
Variable critic_mean : list (CriticGrads * (R * R)) -> CriticGrads * (R * R).

(** The optimisers: [update(gradients, opt_state)] and
    [optax.apply_updates(params, updates)]. *)
Variable actor_update_fn : ActorGrads -> ActorOpt -> ActorGrads * ActorOpt.
Variable critic_update_fn : CriticGrads -> CriticOpt -> CriticGrads * CriticOpt.
Variable actor_apply_updates : ActorParams -> ActorGrads -> ActorParams.
Variable critic_apply_updates : CriticParams -> CriticGrads -> CriticParams.

(** What a replica computes on its own minibatch before the reductions. *)
Definition local_actor_grads (train_state : Replicated TrainState)
  (batch_info : Replicated BatchInfo) : Replicated (ActorGrads * (R * (R * R))) :=
  fun d b =>
    let '(params, _, key) := train_state d b in
    let '(_, entropy_key) := split key in
    let '(actor_loss_info, actor_grads) :=
      actor_grad_fn (actor_params params) (batch_info d b) entropy_key in
    (actor_grads, actor_loss_info).

Definition local_critic_grads (train_state : Replicated TrainState)
  (batch_info : Replicated BatchInfo) : Replicated (CriticGrads * (R * R)) :=
  fun d b =>
    let '(params, _, _) := train_state d b in
    let '(value_loss_info, critic_grads) :=
      critic_grad_fn (critic_params params) (batch_info d b) in
    (critic_grads, value_loss_info).

(** [_update_minibatch], run by all replicas at once. *)
Definition _update_minibatch (train_state : Replicated TrainState)
  (batch_info : Replicated BatchInfo) : Replicated (TrainState * LossInfo) :=
  (* Compute the parallel mean (pmean) over the batch, then over devices. *)
  let actor_synced :=
    pmean actor_mean device_axis
      (pmean actor_mean batch_axis (local_actor_grads train_state batch_info)) in
  let critic_synced :=
    pmean critic_mean device_axis
      (pmean critic_mean batch_axis (local_critic_grads train_state batch_info)) in
  fun d b =>
    let '(params, opt_states, key) := train_state d b in
    let '(_, entropy_key) := split key in
    let '(actor_grads, actor_loss_info) := actor_synced d b in
    let '(critic_grads, value_loss_info) := critic_synced d b in
    (* Update params and optimiser state. *)
    let '(actor_updates, actor_new_opt_state) :=
      actor_update_fn actor_grads (actor_opt_state opt_states) in
    let actor_new_params :=
      actor_apply_updates (actor_params params) actor_updates in
    let '(critic_updates, critic_new_opt_state) :=
      critic_update_fn critic_grads (critic_opt_state opt_states) in
    let critic_new_params :=
      critic_apply_updates (critic_params params) critic_updates in
    let new_params :=
      {| actor_params := actor_new_params; critic_params := critic_new_params |} in
    let new_opt_state :=
      {| actor_opt_state := actor_new_opt_state;
         critic_opt_state := critic_new_opt_state |} in
    let '(actor_loss', (_, entropy')) := actor_loss_info in
    let '(value_loss', unscaled_value_loss) := value_loss_info in
    let loss_info :=
      {| total_loss := actor_loss' + value_loss';
         value_loss := unscaled_value_loss;
         actor_loss := actor_loss';
         entropy := entropy' |} in
    ((new_params, new_opt_state, entropy_key), loss_info).

(** [jax.lax.scan(_update_minibatch, ...)] over the minibatches every
    replica holds, keeping the final carry: the minibatch updates of an
    epoch, and, epoch after epoch, of an update step. *)
Fixpoint scan_minibatches (train_state : Replicated TrainState)
  (minibatches : list (Replicated BatchInfo)) : Replicated TrainState :=
  match minibatches with
  | [] => train_state
  | batch_info :: rest =>
      scan_minibatches
        (fun d b => fst (_update_minibatch train_state batch_info d b)) rest
  end.

End Sync.

Section SyncFacts.

Variables (n_devices update_batch_size : nat).
Variables (ActorParams CriticParams ActorOpt CriticOpt Key : Type).
Variables (ActorGrads CriticGrads BatchInfo : Type).
Variable split : Key -> Key * Key.
Variable actor_grad_fn :
  ActorParams -> BatchInfo -> Key -> (R * (R * R)) * ActorGrads.
Variable critic_grad_fn : CriticParams -> BatchInfo -> (R * R) * CriticGrads.
Variable actor_mean : list (ActorGrads * (R * (R * R))) -> ActorGrads * (R * (R * R)).
Variable critic_mean : list (CriticGrads * (R * R)) -> CriticGrads * (R * R).
Variable actor_update_fn : ActorGrads -> ActorOpt -> ActorGrads * ActorOpt.
Variable critic_update_fn : CriticGrads -> CriticOpt -> CriticGrads * CriticOpt.
Variable actor_apply_updates : ActorParams -> ActorGrads -> ActorParams.
Variable critic_apply_updates : CriticParams -> CriticGrads -> CriticParams.

Local Abbreviation TrainState :=
  (Params ActorParams CriticParams * OptStates ActorOpt CriticOpt * Key)%type.

Local Abbreviation update_minibatch :=
  (@_update_minibatch n_devices update_batch_size ActorParams CriticParams
     ActorOpt CriticOpt Key ActorGrads CriticGrads BatchInfo split actor_grad_fn
     critic_grad_fn actor_mean critic_mean actor_update_fn critic_update_fn
     actor_apply_updates critic_apply_updates).

(** The mean over the devices of the per-device means over the batch
    axis. *)
Definition mean_over_axes (X : Type) (tree_mean : list X -> X)
  (x : Replicated X) : X :=
  tree_mean
    (map (fun d' => tree_mean (map (fun b' => x d' b') (seq 0 update_batch_size)))
         (seq 0 n_devices)).

(** The two reductions in a row leave every replica with that one value. *)
Lemma pmean_batch_then_device (X : Type) (tree_mean : list X -> X)
  (x : Replicated X) (d b : nat) :
  pmean n_devices update_batch_size tree_mean device_axis
    (pmean n_devices update_batch_size tree_mean batch_axis x) d b
  = mean_over_axes tree_mean x.
Proof. reflexivity. Qed.

(** The parameters and optimiser states of a train state. *)
Definition params_of (s : TrainState) : Params ActorParams CriticParams :=
  fst (fst s).
Definition opt_states_of (s : TrainState) : OptStates ActorOpt CriticOpt :=
  snd (fst s).

(** All replicas of the two axes hold the same parameters and optimiser
    states. *)
Definition in_sync (train_state : Replicated TrainState) : Prop :=
  forall d b d' b',
    d < n_devices -> b < update_batch_size ->
    d' < n_devices -> b' < update_batch_size ->
    params_of (train_state d b) = params_of (train_state d' b') /\
    opt_states_of (train_state d b) = opt_states_of (train_state d' b').

(** Two replicas that enter a minibatch update with the same parameters and
    optimiser states leave it with the same parameters, optimiser states and
    loss statistics, whatever their minibatches and keys. *)
Lemma update_minibatch_pair (train_state : Replicated TrainState)
  (batch_info : Replicated BatchInfo) (d b d' b' : nat) :
  params_of (train_state d b) = params_of (train_state d' b') ->
  opt_states_of (train_state d b) = opt_states_of (train_state d' b') ->
  params_of (fst (update_minibatch train_state batch_info d b))
    = params_of (fst (update_minibatch train_state batch_info d' b')) /\
  opt_states_of (fst (update_minibatch train_state batch_info d b))
    = opt_states_of (fst (update_minibatch train_state batch_info d' b')) /\
  snd (update_minibatch train_state batch_info d b)
    = snd (update_minibatch train_state batch_info d' b').
Proof.
  unfold _update_minibatch, params_of, opt_states_of.
  rewrite !pmean_batch_then_device.
  destruct (train_state d b) as [[p o] k], (train_state d' b') as [[p' o'] k'].
  cbn [fst snd]. intros <- <-.
  destruct (split k) as [k1 k2], (split k') as [k1' k2'].
  destruct (mean_over_axes actor_mean _) as [ag [al [al' e]]].
  destruct (mean_over_axes critic_mean _) as [cg [vl vl']].
  destruct (actor_update_fn ag _) as [au ao], (critic_update_fn cg _) as [cu co].
  cbn [fst snd]. repeat split.
Qed.

(** What a minibatch update leaves in a replica: its own parameters moved
    by the optimiser's update for the gradients averaged over the batch axis
    and then over the devices, and the loss statistics averaged likewise. *)
Lemma update_minibatch_result (train_state : Replicated TrainState)
  (batch_info : Replicated BatchInfo) (d b : nat) :
  let actor_synced :=
    mean_over_axes actor_mean
      (local_actor_grads split actor_grad_fn train_state batch_info) in
  let critic_synced :=
    mean_over_axes critic_mean
      (local_critic_grads critic_grad_fn train_state batch_info) in
  let params := params_of (train_state d b) in
  let opt_states := opt_states_of (train_state d b) in
  params_of (fst (update_minibatch train_state batch_info d b))
  = {| actor_params :=
         actor_apply_updates (actor_params params)
           (fst (actor_update_fn (fst actor_synced) (actor_opt_state opt_states)));
       critic_params :=
         critic_apply_updates (critic_params params)
           (fst (critic_update_fn (fst critic_synced) (critic_opt_state opt_states))) |}
  /\
  snd (update_minibatch train_state batch_info d b)
  = {| total_loss := fst (snd actor_synced) + fst (snd critic_synced);
       value_loss := snd (snd critic_synced);
       actor_loss := fst (snd actor_synced);
       entropy := snd (snd (snd actor_synced)) |}.
Proof.
  cbv zeta. unfold _update_minibatch, params_of, opt_states_of.
  rewrite !pmean_batch_then_device.
  destruct (train_state d b) as [[p o] k]. cbn [fst snd].
  destruct (split k) as [k1 k2].
  destruct (mean_over_axes actor_mean _) as [ag [al [al' e]]].
  destruct (mean_over_axes critic_mean _) as [cg [vl vl']].
  cbn [fst snd].
  destruct (actor_update_fn ag _) as [au ao], (critic_update_fn cg _) as [cu co].
  split; reflexivity.
Qed.

(** C6: in a minibatch update the actor and the critic gradients and the
    loss statistics are averaged across the batch axis and then across the
    device axis, and the optimiser update is applied to the averaged
    gradients; and when all replicas enter the update with identical
    parameters and optimiser states (their minibatches, keys and local
    gradients being arbitrary), all replicas leave it with identical
    parameters, optimiser states and loss statistics. *)
Theorem _update_minibatch_in_sync (train_state : Replicated TrainState)
  (batch_info : Replicated BatchInfo) :
  in_sync train_state ->
  let actor_synced :=
    mean_over_axes actor_mean
      (local_actor_grads split actor_grad_fn train_state batch_info) in
  let critic_synced :=
    mean_over_axes critic_mean
      (local_critic_grads critic_grad_fn train_state batch_info) in
  (forall d b,
     let params := params_of (train_state d b) in
     let opt_states := opt_states_of (train_state d b) in
     params_of (fst (update_minibatch train_state batch_info d b))
     = {| actor_params :=
            actor_apply_updates (actor_params params)
              (fst (actor_update_fn (fst actor_synced) (actor_opt_state opt_states)));
          critic_params :=
            critic_apply_updates (critic_params params)
              (fst (critic_update_fn (fst critic_synced)
                      (critic_opt_state opt_states))) |} /\
     snd (update_minibatch train_state batch_info d b)
     = {| total_loss := fst (snd actor_synced) + fst (snd critic_synced);
          value_loss := snd (snd critic_synced);
          actor_loss := fst (snd actor_synced);
          entropy := snd (snd (snd actor_synced)) |}) /\
  in_sync (fun d b => fst (update_minibatch train_state batch_info d b)).
Proof.
  intros Hsync actor_synced critic_synced. split.
  - intros d b. apply update_minibatch_result.
  - intros d b d' b' Hd Hb Hd' Hb'.
    destruct (Hsync d b d' b' Hd Hb Hd' Hb') as [Hp Ho].
    destruct (update_minibatch_pair train_state batch_info d b d' b' Hp Ho)
      as [Hp' [Ho' _]].
    split; assumption.
Qed.

(** X2: the replicas stay in step through any run of minibatch updates,
    such as those of an epoch, whatever the minibatches and the keys are. *)
Lemma scan_minibatches_in_sync (minibatches : list (Replicated BatchInfo)) :
  forall train_state : Replicated TrainState,
  in_sync train_state ->
  in_sync
    (scan_minibatches n_devices update_batch_size split actor_grad_fn critic_grad_fn
       actor_mean critic_mean actor_update_fn critic_update_fn
       actor_apply_updates critic_apply_updates train_state minibatches).
Proof.
  induction minibatches as [| batch_info rest IH]; intros train_state Hsync;
    [exact Hsync |].
  cbn [scan_minibatches]. apply IH.
  intros d b d' b' Hd Hb Hd' Hb'.
  destruct (Hsync d b d' b' Hd Hb Hd' Hb') as [Hp Ho].
  destruct (update_minibatch_pair train_state batch_info d b d' b' Hp Ho)
    as [Hp' [Ho' _]].
  split; assumption.
Qed.

End SyncFacts.

(** *** Two devices with two batch replicas each *)

Section SyncExample.

Local Open Scope R_scope.

(** Scalar parameters and gradients; the local gradient of a replica is its
    local minibatch, so the four replicas hold four different gradients. The
    optimiser is a plain gradient step that counts its updates. *)
Definition actor_grad_ex (_ : R) (batch_info : R) (_ : nat) : (R * (R * R)) * R :=
  ((batch_info, (batch_info, 0)), batch_info).
Definition critic_grad_ex (_ : R) (batch_info : R) : (R * R) * R :=
  ((batch_info, batch_info), 2 * batch_info).
Definition actor_mean_ex (l : list (R * (R * (R * R)))) : R * (R * (R * R)) :=
  (mean (map fst l),
   (mean (map (fun x => fst (snd x)) l),
    (mean (map (fun x => fst (snd (snd x))) l),
     mean (map (fun x => snd (snd (snd x))) l)))).
Definition critic_mean_ex (l : list (R * (R * R))) : R * (R * R) :=
  (mean (map fst l),
   (mean (map (fun x => fst (snd x)) l), mean (map (fun x => snd (snd x)) l))).
Definition sgd_ex (g : R) (count : nat) : R * nat := (- (0.1) * g, S count).

Definition train_state_ex : Replicated (Params R R * OptStates nat nat * nat) :=
  fun d b =>
    ({| actor_params := 1; critic_params := 2 |},
     {| actor_opt_state := 0%nat; critic_opt_state := 0%nat |},
     (d + 2 * b)%nat).
Definition batch_info_ex : Replicated R := fun d b => INR (d + 2 * b).

Definition update_minibatch_ex :
  Replicated ((Params R R * OptStates nat nat * nat) * LossInfo) :=
  @_update_minibatch 2 2 R R nat nat nat R R R split_ex actor_grad_ex
    critic_grad_ex actor_mean_ex critic_mean_ex sgd_ex sgd_ex Rplus Rplus
    train_state_ex batch_info_ex.

Lemma _update_minibatch_in_sync_witness :
  fst (fst (fst (update_minibatch_ex 0%nat 0%nat)))
    = fst (fst (fst (update_minibatch_ex 1%nat 1%nat))) /\
  snd (update_minibatch_ex 0%nat 1%nat) = snd (update_minibatch_ex 1%nat 0%nat).
Proof.
  destruct (@_update_minibatch_in_sync 2 2 R R nat nat nat R R R split_ex
              actor_grad_ex critic_grad_ex actor_mean_ex critic_mean_ex
              sgd_ex sgd_ex Rplus Rplus train_state_ex batch_info_ex
              (fun d b d' b' _ _ _ _ => conj eq_refl eq_refl))
    as [Hresult Hsync].
  split.
  - apply (Hsync 0 0 1 1)%nat; lia.
  - unfold update_minibatch_ex.
    destruct (Hresult 0 1)%nat as [_ ->]. now destruct (Hresult 1 0)%nat as [_ ->].
Defined.

(** Two minibatch updates in a row, the second on other minibatches. *)
Lemma scan_minibatches_in_sync_witness :
  in_sync 2 2
    (scan_minibatches 2 2 split_ex actor_grad_ex critic_grad_ex actor_mean_ex
       critic_mean_ex sgd_ex sgd_ex Rplus Rplus train_state_ex
       [batch_info_ex; fun d b => INR (3 * d + b)]).
Proof.
  apply scan_minibatches_in_sync.
  intros d b d' b' _ _ _ _. split; reflexivity.
Defined.

End SyncExample.

(** ** The test helper [find_replace] (test/utils.py) *)

Section FindReplace.

(** What a configuration holds that is not a dictionary: booleans, numbers
    and lists. [find_replace] only asks of a value whether it is a [dict]. *)
Variable Leaf : Type.

(** A configuration value: a leaf, or a dictionary, given by its items in
    insertion order (with distinct keys). *)
#[local] Unset Elimination Schemes.
Inductive ConfigTree : Type :=
| leaf (v : Leaf)
| dict (items : list (string * ConfigTree)).
#[local] Set Elimination Schemes.

(** [k in d] and [d[k]]. *)
Fixpoint lookup (V : Type) (k : string) (d : list (string * V)) : option V :=
  match d with
  | [] => None
  | (k', v) :: rest => if String.eqb k' k then Some v else lookup k rest
  end.

Variable replacements : list (string * ConfigTree).

(** The value key [k] holds after its turn in the loop of
    [_find_replace_recursive], having held [v] before: a dictionary is
    searched in turn, whatever its key; any other value is replaced when
    its key is one of the replacements. *)
Fixpoint visit (k : string) (v : ConfigTree) {struct v} : ConfigTree :=
  match v with
  | dict items => dict (map (fun kv => (fst kv, visit (fst kv) (snd kv))) items)
  | leaf _ =>
      match lookup k replacements with
      | Some r => r
      | None => v
      end
  end.

(** The loop assigns to the key it is visiting; the keys of a dictionary
    being distinct, the dictionary it returns (the one it was given,
    updated in place) holds the visited value under every key. *)
Definition _find_replace_recursive (current_dict : list (string * ConfigTree)) :
  list (string * ConfigTree) :=
  map (fun kv => (fst kv, visit (fst kv) (snd kv))) current_dict.

End FindReplace.

Definition find_replace (Leaf : Type) (d replacements : list (string * ConfigTree Leaf)) :
  list (string * ConfigTree Leaf) :=
  _find_replace_recursive replacements d.

(** [d[k1][k2]...[kn]], when every index but the last meets a dictionary
    that has the key. *)
Fixpoint get_path (Leaf : Type) (path : list string) (t : ConfigTree Leaf) :
  option (ConfigTree Leaf) :=
  match path with
  | [] => Some t
  | k :: path' =>
      match t with
      | dict items =>
          match lookup k items with
          | Some v => get_path path' v
          | None => None
          end
      | leaf _ => None
      end
  end.

(** The keys under which a configuration holds a leaf, at any depth. *)
Fixpoint leaf_keys (Leaf : Type) (k : string) (t : ConfigTree Leaf) : list string :=
  match t with
  | leaf _ => [k]
  | dict items => flat_map (fun kv => leaf_keys (fst kv) (snd kv)) items
  end.

(** No replacement value is itself a dictionary. *)
Definition leaf_valued (Leaf : Type) (replacements : list (string * ConfigTree Leaf)) :
  Prop :=
  Forall (fun kv => exists v, snd kv = leaf v) replacements.

Section FindReplaceFacts.

Variable Leaf : Type.
Local Abbreviation Tree := (ConfigTree Leaf).
Local Abbreviation Dict := (list (string * ConfigTree Leaf)).

(** Induction on configurations: a property of all leaves that a
    dictionary inherits from its values holds of every configuration. *)
Section TreeInduction.

Variable P : Tree -> Prop.
Hypothesis P_leaf : forall v, P (leaf v).
Hypothesis P_dict :
  forall items, Forall (fun kv => P (snd kv)) items -> P (dict items).

Fixpoint ConfigTree_ind (t : Tree) : P t :=
  match t with
  | leaf v => P_leaf v
  | dict items =>
      P_dict
        ((fix all (l : Dict) : Forall (fun kv => P (snd kv)) l :=
            match l with
            | [] => Forall_nil _
            | kv :: rest => Forall_cons kv (ConfigTree_ind (snd kv)) (all rest)
            end) items)
  end.

End TreeInduction.

Lemma lookup_map (V W : Type) (f : string -> V -> W) (k : string)
  (d : list (string * V)) :
  lookup k (map (fun kv => (fst kv, f (fst kv) (snd kv))) d)
  = option_map (f k) (lookup k d).
Proof.
  induction d as [| [k' v] rest IH]; [reflexivity |]. cbn.
  destruct (String.eqb_spec k' k) as [-> |]; [reflexivity | exact IH].
Qed.

(** What a key holds afterwards is what it held before, visited. *)
Lemma lookup_find_replace (replacements d : Dict) (k : string) :
  lookup k (find_replace d replacements)
  = option_map (visit replacements k) (lookup k d).
Proof. apply lookup_map. Qed.

Lemma get_path_visit (replacements : Dict) (path : list string) :
  forall (d : Dict) (k : string) (t : Tree),
  get_path (path ++ [k]) (dict d) = Some t ->
  get_path (path ++ [k]) (dict (find_replace d replacements))
  = Some (visit replacements k t).
Proof.
  induction path as [| k1 path IH]; intros d k t; cbn [app get_path];
    rewrite lookup_find_replace.
  - destruct (lookup k d) as [v |]; [| discriminate]. now intros [= ->].
  - destruct (lookup k1 d) as [v |]; [| discriminate]. cbn [option_map].
    destruct v as [v | items].
    + destruct path; discriminate.
    + intros Hget. cbn [visit]. now apply IH.
Qed.

(** The visit reads the replacements through their lookup only. *)
Lemma visit_ext (r r' : Dict) :
  (forall k, lookup k r = lookup k r') ->
  forall (t : Tree) (k : string), visit r k t = visit r' k t.
Proof.
  intros Hr. induction t as [v | items IH] using ConfigTree_ind; intros k; cbn.
  - now rewrite Hr.
  - f_equal. apply map_ext_in. intros kv Hin. f_equal.
    rewrite Forall_forall in IH. now apply IH.
Qed.

Lemma lookup_leaf_valued (r : Dict) (k : string) (x : Tree) :
  leaf_valued r -> lookup k r = Some x -> exists v, x = leaf v.
Proof.
  intros Hr. induction Hr as [| [k' y] rest Hy _ IH]; [discriminate |]. cbn.
  destruct (String.eqb k' k); [| exact IH]. intros [= <-]. exact Hy.
Qed.

(** Visiting with [r1] and then with [r2] is visiting once with the two
    merged, [r2] first, when the values of [r1] are leaves. *)
Lemma visit_visit (r1 r2 r : Dict) :
  leaf_valued r1 ->
  (forall k, lookup k r
             = match lookup k r2 with Some x => Some x | None => lookup k r1 end) ->
  forall (t : Tree) (k : string), visit r2 k (visit r1 k t) = visit r k t.
Proof.
  intros H1 Hr. induction t as [v | items IH] using ConfigTree_ind; intros k.
  - cbn [visit]. rewrite Hr.
    destruct (lookup k r1) as [x |] eqn:E1.
    + destruct (lookup_leaf_valued k H1 E1) as [w ->]. cbn [visit].
      now destruct (lookup k r2).
    + cbn [visit]. now destruct (lookup k r2).
  - cbn [visit]. f_equal. rewrite map_map. apply map_ext_in.
    intros kv Hin. cbn [fst snd]. f_equal.
    rewrite Forall_forall in IH. now apply IH.
Qed.

Lemma visit_untouched (r : Dict) :
  forall (t : Tree) (k : string),
  (forall k', In k' (leaf_keys k t) -> lookup k' r = None) ->
  visit r k t = t.
Proof.
  induction t as [v | items IH] using ConfigTree_ind; intros k Hk.
  - cbn. now rewrite Hk by now left.
  - cbn [visit]. f_equal. etransitivity; [| apply map_id].
    apply map_ext_in. intros [k' v] Hin. cbn [fst snd]. f_equal.
    rewrite Forall_forall in IH. apply (IH (k', v) Hin).
    intros k'' Hk''. apply Hk. cbn [leaf_keys]. apply in_flat_map.
    exists (k', v). now split.
Qed.

End FindReplaceFacts.

Section FindReplaceTheorems.

Variable Leaf : Type.
Local Abbreviation Dict := (list (string * ConfigTree Leaf)).

(** X7: [find_replace] searches every nested dictionary. Whatever the
    original dictionary holds at the end of a path of keys, the result
    holds at that path: the replacement for the path's last key when the
    original value is not a dictionary and that key is one of the
    replacements; the original value when it is not a dictionary and the
    key is not among them; and, when the original value is a dictionary,
    that dictionary searched in turn (never a replacement, even if its key
    is one of the replacements). *)
Theorem find_replace_at_path (d replacements : Dict) (path : list string)
  (k : string) (t : ConfigTree Leaf) :
  get_path (path ++ [k]) (dict d) = Some t ->
  get_path (path ++ [k]) (dict (find_replace d replacements))
  = Some match t with
         | dict items => dict (find_replace items replacements)
         | leaf _ =>
             match lookup k replacements with
             | Some r => r
             | None => t
             end
         end.
Proof.
  intros Hget. rewrite (get_path_visit replacements path d k Hget).
  now destruct t.
Qed.

(** X8: two calls in a row, first with [r1] and then with [r2], give what
    one call gives with the two merged ([r2] taking precedence), provided
    no value of [r1] is a dictionary; in particular the call is idempotent
    for replacements that hold no dictionary. *)
Theorem find_replace_twice (d r1 r2 r : Dict) :
  leaf_valued r1 ->
  (forall k, lookup k r
             = match lookup k r2 with Some x => Some x | None => lookup k r1 end) ->
  find_replace (find_replace d r1) r2 = find_replace d r /\
  find_replace (find_replace d r1) r1 = find_replace d r1.
Proof.
  intros H1 Hr. unfold find_replace, _find_replace_recursive.
  rewrite !map_map. split; apply map_ext; intros kv; cbn [fst snd]; f_equal.
  - now apply visit_visit.
  - apply visit_visit; [assumption |]. intros k. now destruct (lookup k r1).
Qed.

(** X9: a dictionary none of whose non-dictionary values sits under a key
    of the replacements, however deep, comes back unchanged. *)
Theorem find_replace_untouched (d replacements : Dict) :
  (forall k, In k (flat_map (fun kv => leaf_keys (fst kv) (snd kv)) d) ->
             lookup k replacements = None) ->
  find_replace d replacements = d.
Proof.
  intros Hk. unfold find_replace, _find_replace_recursive.
  etransitivity; [| apply map_id]. apply map_ext_in. intros [k v] Hin.
  cbn [fst snd]. f_equal. apply visit_untouched. intros k' Hk'.
  apply Hk, in_flat_map. exists (k, v). now split.
Qed.

End FindReplaceTheorems.

(** *** A nested configuration *)

Section FindReplaceExample.

Local Open Scope string_scope.
Local Open Scope Z_scope.

Definition config_ex : list (string * ConfigTree Z) :=
  [("system", dict [("rollout_length", leaf 128); ("ppo_epochs", leaf 4)]);
   ("arch", dict [("num_envs", leaf 16)]);
   ("num_envs", leaf 0)].

Definition fast_ex : list (string * ConfigTree Z) :=
  [("rollout_length", leaf 1); ("num_envs", leaf 1); ("system", leaf 7)].

Example find_replace_config_ex :
  find_replace config_ex fast_ex
  = [("system", dict [("rollout_length", leaf 1); ("ppo_epochs", leaf 4)]);
     ("arch", dict [("num_envs", leaf 1)]);
     ("num_envs", leaf 1)].
Proof. reflexivity. Qed.

(** A replacement that is a dictionary is searched by a second call: the
    call is not idempotent without the proviso of X8. *)
Example find_replace_not_idempotent :
  let r := [("a", dict [("a", leaf 1)])] in
  find_replace [("a", leaf 0)] r = [("a", dict [("a", leaf 1)])] /\
  find_replace (find_replace [("a", leaf 0)] r) r
  = [("a", dict [("a", dict [("a", leaf 1)])])].
Proof. split; reflexivity. Qed.

Lemma find_replace_at_path_witness :
  get_path (["system"] ++ ["rollout_length"]) (dict (find_replace config_ex fast_ex))
  = Some (leaf 1).
Proof.
  exact (find_replace_at_path config_ex fast_ex ["system"] "rollout_length" eq_refl).
Defined.

Lemma find_replace_twice_witness :
  find_replace (find_replace config_ex fast_ex) [("ppo_epochs", leaf 1)]
  = find_replace config_ex (("ppo_epochs", leaf 1) :: fast_ex) /\
  find_replace (find_replace config_ex fast_ex) fast_ex
  = find_replace config_ex fast_ex.
Proof.
  apply find_replace_twice.
  - repeat constructor; eexists; reflexivity.
  - intros k. cbn [lookup]. now destruct (String.eqb "ppo_epochs" k).
Defined.

Lemma find_replace_untouched_witness :
  find_replace config_ex [("seed", leaf 42)] = config_ex.
Proof.
  apply find_replace_untouched. intros k Hin. cbn in Hin. cbn [lookup].
  destruct (String.eqb_spec "seed" k) as [<- |]; [| reflexivity].
  repeat (destruct Hin as [Hin | Hin]; [discriminate |]). contradiction.
Defined.

End FindReplaceExample.

(** ** [jax.lax.scan] and the rollout of [_update_step] (lines 146-149) *)

Section Scan.

Variables (Carry Y : Type).

(** [jax.lax.scan(f, init, None, length)]: [f] is applied [length] times,
    each time to the carry the previous application left; the outputs are
    stacked in order. An error of [f] is the error of the scan. *)
Fixpoint scan (f : Carry -> Outcome (Carry * Y)) (init : Carry) (length : nat) :
  Outcome (Carry * list Y) :=
  match length with
  | 0 => Return (init, [])
  | S length' =>
      out <- f init ;;
      rest <- scan f (fst out) length' ;;
      Return (fst rest, snd out :: snd rest)
  end.

Variable f : Carry -> Outcome (Carry * Y).

Lemma scan_length (n : nat) : forall init carry ys,
  scan f init n = Return (carry, ys) -> length ys = n.
Proof.
  induction n as [| n IH]; intros init carry ys; cbn.
  - now intros [= _ <-].
  - destruct (f init) as [e | [c y]]; [discriminate |]. cbn.
    destruct (scan f c n) as [e | [c' ys']] eqn:E; [discriminate |]. cbn.
    intros [= _ <-]. cbn. f_equal. exact (IH _ _ _ E).
Qed.

(** A scan of [n + m] steps is a scan of [n] steps followed by a scan of
    [m] steps from the carry it leaves. *)
Lemma scan_add (n m : nat) : forall init,
  scan f init (n + m)
  = (first <- scan f init n ;;
     second <- scan f (fst first) m ;;
     Return (fst second, snd first ++ snd second)).
Proof.
  induction n as [| n IH]; intros init; cbn.
  - now destruct (scan f init m) as [e | [c ys]].
  - destruct (f init) as [e | [c y]]; [reflexivity |]. cbn. rewrite IH.
    destruct (scan f c n) as [e | [c1 ys1]]; [reflexivity |]. cbn.
    now destruct (scan f c1 m) as [e | [c2 ys2]].
Qed.

(** When [f] returns on every carry that satisfies an invariant it keeps,
    so does the scan, and the invariant holds of the final carry. *)
Lemma scan_returns (I : Carry -> Prop) :
  (forall c, I c -> exists c' y, f c = Return (c', y) /\ I c') ->
  forall n init, I init ->
  exists carry ys, scan f init n = Return (carry, ys) /\ I carry.
Proof.
  intros Hf. induction n as [| n IH]; intros init Hinit; cbn.
  - now exists init, [].
  - destruct (Hf init Hinit) as [c [y [-> Hc]]]. cbn.
    destruct (IH c Hc) as [c' [ys [-> Hc']]]. cbn. now exists c', (y :: ys).
Qed.

End Scan.

Section RolloutScan.

Variables (ActorParams CriticParams OptStates Key EnvState TimeStep : Type).
Variables (Obs Action Value Reward LogProb PolicyH CriticH Policy Metrics : Type).
Variable split : Key -> Key * Key.
Variable actor_apply_fn :
  ActorParams -> PolicyH -> list Obs * list (list (list bool)) -> PolicyH * Policy.
Variable critic_apply_fn :
  CriticParams -> CriticH -> list Obs * list (list (list bool)) ->
  CriticH * list Value.
Variable policy_sample : Policy -> Key -> list Action.
Variable policy_log_prob : Policy -> list Action -> list LogProb.
Variable env_step : EnvState -> Action -> EnvState * TimeStep.
Variable observation : TimeStep -> Obs.
Variable timestep_reward : TimeStep -> Reward.
Variable last : TimeStep -> list bool.
Variable timestep_metrics : TimeStep -> Metrics.
Variables (num_agents n_envs : nat).

Local Abbreviation LearnerState :=
  (RNNLearnerState (Params ActorParams CriticParams) OptStates Key EnvState
     TimeStep (list (list bool)) (HiddenStates PolicyH CriticH)).
Local Abbreviation Transition :=
  (RNNPPOTransition (list (list bool)) Action Value Reward LogProb Obs
     (HiddenStates PolicyH CriticH)).

Local Abbreviation env_step_fn :=
  (@_env_step ActorParams CriticParams OptStates Key EnvState TimeStep Obs Action
     Value Reward LogProb PolicyH CriticH Policy Metrics split actor_apply_fn
     critic_apply_fn policy_sample policy_log_prob env_step observation
     timestep_reward last timestep_metrics num_agents n_envs).

(** [jax.lax.scan(_env_step, learner_state, None, config.system.rollout_length)].
    The stacked outputs [(traj_batch, episode_metrics)] are kept as the list
    of the steps' outputs. *)
Definition rollout (learner_state : LearnerState) (rollout_len : nat) :
  Outcome (LearnerState * list (Transition * Metrics)) :=
  scan env_step_fn learner_state rollout_len.

(** The key a learner state holds [n] environment steps later. *)
Fixpoint key_after (n : nat) (k : Key) : Key :=
  match n with
  | 0 => k
  | S n' => key_after n' (fst (split k))
  end.

End RolloutScan.

Section ScanFacts.

Variables (Carry Y : Type).
Variable f : Carry -> Outcome (Carry * Y).

(** Every output of a scan is the output of [f] on some carry, the next
    output is that of [f] on the carry this leaves, and the last carry
    left is the scan's. *)
Lemma scan_step (n : nat) : forall init carry ys t y,
  scan f init n = Return (carry, ys) ->
  nth_error ys t = Some y ->
  exists c c',
    f c = Return (c', y) /\
    (forall y', nth_error ys (S t) = Some y' -> exists c'', f c' = Return (c'', y')) /\
    (S t = n -> c' = carry).
Proof.
  induction n as [| n IH]; intros init carry ys t y; cbn.
  - intros [= _ <-]. now destruct t.
  - destruct (f init) as [e | [c1 y1]] eqn:E1; [discriminate |]. cbn.
    destruct (scan f c1 n) as [e | [c2 ys2]] eqn:E2; [discriminate |]. cbn.
    intros [= <- <-]. destruct t as [| t]; cbn [nth_error].
    + intros [= <-]. exists init, c1. split; [exact E1 |]. split.
      * intros y' Hy'. destruct n as [| n]; cbn in E2.
        -- injection E2 as _ <-. discriminate.
        -- destruct (f c1) as [e | [c3 y3]]; [discriminate |]. cbn in E2.
           destruct (scan f c3 n) as [e | [c4 ys4]]; [discriminate |].
           cbn in E2. injection E2 as _ <-. cbn in Hy'. injection Hy' as <-.
           now exists c3.
      * intros [= <-]. cbn in E2. now injection E2 as ->.
    + intros Hy. destruct (IH _ _ _ _ _ E2 Hy) as [c [c' [Hc [Hnext Hlast]]]].
      exists c, c'. split; [exact Hc |]. split; [exact Hnext |].
      intros [= Hn]. now apply Hlast.
Qed.

End ScanFacts.

Section RolloutFacts2.

Variables (ActorParams CriticParams OptStates Key EnvState TimeStep : Type).
Variables (Obs Action Value Reward LogProb PolicyH CriticH Policy Metrics : Type).
Variable split : Key -> Key * Key.
Variable actor_apply_fn :
  ActorParams -> PolicyH -> list Obs * list (list (list bool)) -> PolicyH * Policy.
Variable critic_apply_fn :
  CriticParams -> CriticH -> list Obs * list (list (list bool)) ->
  CriticH * list Value.
Variable policy_sample : Policy -> Key -> list Action.
Variable policy_log_prob : Policy -> list Action -> list LogProb.
Variable env_step : EnvState -> Action -> EnvState * TimeStep.
Variable observation : TimeStep -> Obs.
Variable timestep_reward : TimeStep -> Reward.
Variable last : TimeStep -> list bool.
Variable timestep_metrics : TimeStep -> Metrics.
Variables (num_agents n_envs : nat).

Local Abbreviation LearnerState :=
  (RNNLearnerState (Params ActorParams CriticParams) OptStates Key EnvState
     TimeStep (list (list bool)) (HiddenStates PolicyH CriticH)).
Local Abbreviation Transition :=
  (RNNPPOTransition (list (list bool)) Action Value Reward LogProb Obs
     (HiddenStates PolicyH CriticH)).
Local Abbreviation env_step_fn :=
  (@_env_step ActorParams CriticParams OptStates Key EnvState TimeStep Obs Action
     Value Reward LogProb PolicyH CriticH Policy Metrics split actor_apply_fn
     critic_apply_fn policy_sample policy_log_prob env_step observation
     timestep_reward last timestep_metrics num_agents n_envs).
Local Abbreviation rollout_fn :=
  (@rollout ActorParams CriticParams OptStates Key EnvState TimeStep Obs Action
     Value Reward LogProb PolicyH CriticH Policy Metrics split actor_apply_fn
     critic_apply_fn policy_sample policy_log_prob env_step observation
     timestep_reward last timestep_metrics num_agents n_envs).

(** The contract of the collaborators, as far as shapes go: for a sequence
    axis of extent one the policy samples, scores and the critic values
    come with a sequence axis of extent one, and every timestep reports
    one termination flag per environment. *)
Hypothesis sample_one : forall p k, length (policy_sample p k) = 1.
Hypothesis log_prob_one : forall p a, length (policy_log_prob p [a]) = 1.
Hypothesis value_one :
  forall params h o d, length (snd (critic_apply_fn params h ([o], [d]))) = 1.
Hypothesis last_envs : forall s a, length (last (snd (env_step s a))) = n_envs.
Hypothesis envs_pos : 0 < n_envs.

Lemma length_one (A : Type) (l : list A) : length l = 1 -> exists a, l = [a].
Proof. destruct l as [| a [| b l]]; try discriminate. now exists a. Qed.

(** What a step that returns has recorded and left behind. *)
Lemma env_step_inv (learner_state learner_state' : LearnerState)
  (transition : Transition) (metrics : Metrics) :
  env_step_fn learner_state = Return (learner_state', (transition, metrics)) ->
  (hstates transition = learner_hstates learner_state /\
   done transition = dones learner_state /\
   obs transition = observation (timestep learner_state) /\
   reward transition = timestep_reward (timestep learner_state') /\
   metrics = timestep_metrics (timestep learner_state')) /\
  (params learner_state' = params learner_state /\
   opt_states learner_state' = opt_states learner_state /\
   key learner_state' = fst (split (key learner_state)) /\
   dones learner_state'
     = map (fun b => repeat b num_agents) (last (timestep learner_state'))).
Proof.
  unfold _env_step.
  destruct (split (key learner_state)) as [key' policy_key].
  destruct (actor_apply_fn _ _ _) as [policy_h actor_policy].
  destruct (critic_apply_fn _ _ _) as [critic_h value'].
  destruct (squeeze0 (policy_sample actor_policy policy_key)) as [e | a];
    [discriminate |].
  destruct (squeeze0 (policy_log_prob actor_policy _)) as [e | lp];
    [discriminate |].
  destruct (squeeze0 value') as [e | v]; [discriminate |]. cbn [bind].
  pose proof (last_envs (env_state learner_state) a) as Hlast.
  destruct (env_step (env_state learner_state) a) as [env_state' timestep'].
  cbn [snd] in Hlast.
  rewrite (@repeat_reshape_broadcast num_agents n_envs _ Hlast envs_pos).
  cbn [bind]. intros [= <- <- <-]. cbn. repeat split.
Qed.

(** Under the contract every step returns. *)
Lemma env_step_returns (learner_state : LearnerState) :
  exists learner_state' transition metrics,
    env_step_fn learner_state = Return (learner_state', (transition, metrics)).
Proof.
  unfold _env_step.
  destruct (split (key learner_state)) as [key' policy_key].
  destruct (actor_apply_fn _ _ _) as [policy_h actor_policy].
  pose proof (value_one (critic_params (params learner_state))
                (critic_hidden_state (learner_hstates learner_state))
                (observation (timestep learner_state)) (dones learner_state))
    as Hv.
  destruct (critic_apply_fn _ _ _) as [critic_h value']. cbn [snd] in Hv.
  destruct (@length_one _ _ (sample_one actor_policy policy_key)) as [a ->].
  destruct (@length_one _ _ (log_prob_one actor_policy a)) as [lp ->].
  destruct (@length_one _ _ Hv) as [v ->]. cbn [squeeze0 bind].
  pose proof (last_envs (env_state learner_state) a) as Hlast.
  destruct (env_step (env_state learner_state) a) as [env_state' timestep'].
  cbn [snd] in Hlast.
  rewrite (@repeat_reshape_broadcast num_agents n_envs _ Hlast envs_pos).
  cbn [bind]. do 3 eexists. reflexivity.
Qed.

(** X10: under the collaborators' contract the rollout returns, with a
    window of exactly [rollout_length] transitions, and it is a rollout
    only: the parameters and the optimiser states of the learner state come
    out as they went in, and the PRNG key is the incoming key split once
    per step, whatever was observed. *)
Theorem rollout_window (rollout_len : nat) : forall learner_state : LearnerState,
  exists learner_state' traj_batch,
    rollout_fn learner_state rollout_len = Return (learner_state', traj_batch) /\
    length traj_batch = rollout_len /\
    params learner_state' = params learner_state /\
    opt_states learner_state' = opt_states learner_state /\
    key learner_state' = key_after split rollout_len (key learner_state).
Proof.
  unfold rollout.
  induction rollout_len as [| n IH]; intros learner_state; cbn [scan key_after].
  - exists learner_state, []. repeat split.
  - destruct (env_step_returns learner_state) as [ls1 [tr [m Hstep]]].
    rewrite Hstep. cbn [bind fst snd].
    destruct (@env_step_inv _ _ _ _ Hstep) as [_ [Hp [Ho [Hk _]]]].
    destruct (IH ls1) as [ls' [traj [-> [Hlen [Hp' [Ho' Hk']]]]]]. cbn [bind fst snd].
    exists ls', ((tr, m) :: traj). split; [reflexivity |].
    cbn [length]. rewrite Hlen, Hp', Ho', Hk', Hp, Ho, Hk. repeat split.
Qed.

(** X11: in the window of a rollout, the transition of step [t] and its
    metrics are taken from one timestep, and it is this timestep that the
    next transition observes: transition [t] stores its reward, and
    transition [t+1] stores its observation and, for every agent of an
    environment, its termination flag as the done flag. After the last
    step the learner state holds that timestep and those done flags. *)
Theorem rollout_alignment (rollout_len : nat) (learner_state learner_state' : LearnerState)
  (traj_batch : list (Transition * Metrics)) (t : nat)
  (transition : Transition) (metrics : Metrics) :
  rollout split actor_apply_fn critic_apply_fn policy_sample policy_log_prob
    env_step observation timestep_reward last timestep_metrics num_agents n_envs
    learner_state rollout_len
  = Return (learner_state', traj_batch) ->
  nth_error traj_batch t = Some (transition, metrics) ->
  exists ts : TimeStep,
    reward transition = timestep_reward ts /\
    metrics = timestep_metrics ts /\
    (forall transition' metrics',
       nth_error traj_batch (S t) = Some (transition', metrics') ->
       obs transition' = observation ts /\
       done transition' = map (fun b => repeat b num_agents) (last ts)) /\
    (S t = rollout_len ->
     timestep learner_state' = ts /\
     dones learner_state' = map (fun b => repeat b num_agents) (last ts)).
Proof.
  intros Hroll Hnth. unfold rollout in Hroll.
  edestruct (@scan_step LearnerState) as [c [c' [Hc [Hnext Hlast]]]];
    [exact Hroll | exact Hnth |].
  destruct (@env_step_inv _ _ _ _ Hc) as [[_ [_ [_ [Hr Hm]]]] [_ [_ [_ Hd]]]].
  exists (timestep c'). split; [exact Hr |]. split; [exact Hm |]. split.
  - intros tr' m' Hnth'. destruct (Hnext _ Hnth') as [c'' Hc'].
    destruct (@env_step_inv _ _ _ _ Hc') as [[_ [Hd' [Ho' _]]] _].
    split; [exact Ho' |]. now rewrite Hd', Hd.
  - intros Hn. rewrite <- (Hlast Hn). split; [reflexivity | exact Hd].
Qed.

End RolloutFacts2.

(** *** Two steps of the example environments *)

Section RolloutScanExample.

Definition rollout_ex :=
  @rollout unit unit unit nat nat nat nat nat nat nat nat nat nat nat unit
    split_ex actor_ex critic_ex sample_ex log_prob_ex env_step_ex
    (fun t => t) (fun t => t) last_ex (fun _ => tt) 3 2.

(** The first two transitions from [learner_state_ex]. *)
Definition transition0_ex :
  RNNPPOTransition (list (list bool)) nat nat nat nat nat (HiddenStates nat nat) :=
  {| done := [[false; false; false]; [false; false; false]];
     action := 21; value := 20; reward := 21; log_prob := 10; obs := 40;
     hstates := {| policy_hidden_state := 10; critic_hidden_state := 20 |} |}.

Definition transition1_ex :
  RNNPPOTransition (list (list bool)) nat nat nat nat nat (HiddenStates nat nat) :=
  {| done := [[false; false; false]; [true; true; true]];
     action := 32; value := 21; reward := 33; log_prob := 11; obs := 21;
     hstates := {| policy_hidden_state := 11; critic_hidden_state := 21 |} |}.

Definition learner_state2_ex :
  RNNLearnerState (Params unit unit) unit nat nat nat (list (list bool))
    (HiddenStates nat nat) :=
  {| params := {| actor_params := tt; critic_params := tt |};
     opt_states := tt; key := 20; env_state := 2; timestep := 33;
     dones := [[false; false; false]; [true; true; true]];
     learner_hstates := {| policy_hidden_state := 12; critic_hidden_state := 22 |} |}.

Example rollout_ex_two_steps :
  rollout_ex learner_state_ex 2
  = Return (learner_state2_ex, [(transition0_ex, tt); (transition1_ex, tt)]).
Proof. reflexivity. Qed.

Lemma rollout_window_witness :
  exists learner_state' traj_batch,
    rollout_ex learner_state_ex 3 = Return (learner_state', traj_batch) /\
    length traj_batch = 3 /\
    params learner_state' = params learner_state_ex /\
    opt_states learner_state' = opt_states learner_state_ex /\
    key learner_state' = key_after split_ex 3 (key learner_state_ex).
Proof.
  unfold rollout_ex. apply rollout_window; intros; (reflexivity || lia).
Defined.

Lemma rollout_alignment_witness :
  exists ts : nat,
    reward transition0_ex = ts /\
    tt = tt /\
    (forall transition' metrics',
       nth_error [(transition0_ex, tt); (transition1_ex, tt)] 1
         = Some (transition', metrics') ->
       obs transition' = ts /\
       done transition' = map (fun b => repeat b 3) (last_ex ts)) /\
    (1 = 2 ->
     timestep learner_state2_ex = ts /\
     dones learner_state2_ex = map (fun b => repeat b 3) (last_ex ts)).
Proof.
  refine (@rollout_alignment unit unit unit nat nat nat nat nat nat nat nat nat
            nat nat unit split_ex actor_ex critic_ex sample_ex log_prob_ex
            env_step_ex (fun t => t) (fun t => t) last_ex (fun _ => tt) 3 2
            (fun _ _ => eq_refl) _ 2 learner_state_ex learner_state2_ex
            [(transition0_ex, tt); (transition1_ex, tt)] 0 transition0_ex tt
            eq_refl eq_refl).
  lia.
Defined.

End RolloutScanExample.

(** ** The training and evaluation loop of [run_experiment] (lines 576-654) *)

(** Python's [a // b] on integers: the floor of the quotient, and a zero
    divisor raises. *)
Definition py_floordiv (a b : Z) : Outcome Z :=
  if (b =? 0)%Z then Raise ZeroDivisionError else Return (a / b)%Z.

Definition updates_msg : string :=
  "Number of updates per evaluation must be less than total number of updates.".

(** Lines 578-583: the assertion on [config.system.num_updates] and
    [config.arch.num_evaluation], and [config.system.num_updates_per_eval]. *)
Definition num_updates_per_eval (num_updates num_evaluation : Z) : Outcome Z :=
  _ <- py_assert (num_evaluation <? num_updates)%Z updates_msg ;;
  py_floordiv num_updates num_evaluation.

(** Lines 584-590. *)
Definition steps_per_rollout (n_devices updates_per_eval rollout_len
  update_batch_size n_envs : Z) : Z :=
  (n_devices * updates_per_eval * rollout_len * update_batch_size * n_envs)%Z.

Section EvaluationLoop.

Local Open Scope R_scope.

(** The replicated learner state, the actor parameters handed to the
    evaluator, PRNG keys and the metrics of an evaluation. *)
Variables (LearnerState ActorParams Key EvalKeys EvalMetrics : Type).

(** [learn(learner_state).learner_state]: one block of training. *)
Variable learn : LearnerState -> LearnerState.

(** [unreplicate_batch_dim(learner_state.params.actor_params)] *)
Variable trained_params_of : LearnerState -> ActorParams.

(** [key_e, *eval_keys = jax.random.split(key_e, n_devices + 1)], stacked and
    reshaped. *)
Variable split_eval : Key -> Key * EvalKeys.

(** [evaluator(trained_params, eval_keys, {"hidden_state": eval_hs})] and
    [jnp.mean(eval_metrics["episode_return"])]. *)
Variable evaluator : ActorParams -> EvalKeys -> EvalMetrics.
Variable episode_return_of : EvalMetrics -> R.

(** [config.logger.checkpointing.save_model], [config.arch.absolute_metric]
    and the value of [steps_per_rollout]. *)
Variables (save_checkpoint absolute_metric : bool).
Variable steps : Z.

(** The variables the loop updates, with the calls it makes to the evaluator
    and to [checkpointer.save] (timestep, learner state, episode return) in
    the order it makes them. [max_episode_return = None] is [-jnp.inf]. *)
Record EvalLoop : Type := {
  loop_learner_state : LearnerState;
  loop_key_e : Key;
  max_episode_return : option R;
  best_params : option ActorParams;
  eval_metrics : option EvalMetrics;
  evaluated : list (ActorParams * EvalKeys);
  saved : list (Z * LearnerState * R)
}.

(** [max_episode_return <= episode_return] *)
Definition max_le (max_return : option R) (episode_return : R) : bool :=
  match max_return with
  | None => true
  | Some m => if Rle_dec m episode_return then true else false
  end.

(** The body of the loop for one [eval_step] (lines 614-654), logging
    apart. *)
Definition eval_step_body (st : EvalLoop) (eval_step : nat) : EvalLoop :=
  let learner_state := loop_learner_state st in
  (* Train. *)
  let learner_output := learn learner_state in
  (* Prepare for evaluation. *)
  let trained_params := trained_params_of learner_state in
  let '(key_e, eval_keys) := split_eval (loop_key_e st) in
  (* Evaluate. *)
  let metrics := evaluator trained_params eval_keys in
  let episode_return := episode_return_of metrics in
  let saved' :=
    if save_checkpoint
    then saved st
         ++ [((steps * (Z.of_nat eval_step + 1))%Z, learner_output, episode_return)]
    else saved st in
  let better := absolute_metric && max_le (max_episode_return st) episode_return in
  {| loop_learner_state := learner_output;
     loop_key_e := key_e;
     max_episode_return :=
       if better then Some episode_return else max_episode_return st;
     best_params := if better then Some trained_params else best_params st;
     eval_metrics := Some metrics;
     evaluated := evaluated st ++ [(trained_params, eval_keys)];
     saved := saved' |}.

(** [for eval_step in range(config.arch.num_evaluation)], from the state
    before the loop. *)
Definition evaluation_loop (num_evaluation : nat) (learner_state : LearnerState)
  (key_e : Key) : EvalLoop :=
  fold_left eval_step_body (seq 0 num_evaluation)
    {| loop_learner_state := learner_state;
       loop_key_e := key_e;
       max_episode_return := None;
       best_params := None;
       eval_metrics := None;
       evaluated := [];
       saved := [] |}.

(** The learner state, the evaluation key, the evaluated parameters and the
    episode return of evaluation [i]. *)
Definition learner_state_at (learner_state : LearnerState) (i : nat) : LearnerState :=
  Nat.iter i learn learner_state.
Definition key_e_at (key_e : Key) (i : nat) : Key :=
  Nat.iter i (fun k => fst (split_eval k)) key_e.
Definition eval_keys_at (key_e : Key) (i : nat) : EvalKeys :=
  snd (split_eval (key_e_at key_e i)).
Definition episode_return_at (learner_state : LearnerState) (key_e : Key)
  (i : nat) : R :=
  episode_return_of
    (evaluator (trained_params_of (learner_state_at learner_state i))
       (eval_keys_at key_e i)).

End EvaluationLoop.

Section EvaluationLoopFacts.

Local Open Scope R_scope.

Variables (LearnerState ActorParams Key EvalKeys EvalMetrics : Type).
Variable learn : LearnerState -> LearnerState.
Variable trained_params_of : LearnerState -> ActorParams.
Variable split_eval : Key -> Key * EvalKeys.
Variable evaluator : ActorParams -> EvalKeys -> EvalMetrics.
Variable episode_return_of : EvalMetrics -> R.
Variables (save_checkpoint absolute_metric : bool).
Variable steps : Z.

Variable learner_state : LearnerState.
Variable key_e : Key.

Local Abbreviation loop n :=
  (evaluation_loop learn trained_params_of split_eval evaluator episode_return_of
     save_checkpoint absolute_metric steps n learner_state key_e).
Local Abbreviation body :=
  (@eval_step_body LearnerState ActorParams Key EvalKeys EvalMetrics learn
     trained_params_of split_eval evaluator episode_return_of save_checkpoint
     absolute_metric steps).
Local Abbreviation state_at i := (learner_state_at learn learner_state i).
Local Abbreviation params_at i := (trained_params_of (learner_state_at learn learner_state i)).
Local Abbreviation keys_at i := (eval_keys_at split_eval key_e i).
Local Abbreviation return_at i :=
  (episode_return_at learn trained_params_of split_eval evaluator
     episode_return_of learner_state key_e i).

Lemma evaluation_loop_S (n : nat) : loop (S n) = body (loop n) n.
Proof.
  unfold evaluation_loop. now rewrite seq_S, fold_left_app.
Qed.

Lemma evaluation_loop_state (n : nat) :
  loop_learner_state (loop n) = state_at n /\
  loop_key_e (loop n) = key_e_at split_eval key_e n.
Proof.
  induction n as [| n [IHs IHk]]; [now split |].
  rewrite evaluation_loop_S. unfold eval_step_body.
  destruct (split_eval (loop_key_e (loop n))) as [k' ks] eqn:E.
  cbn [loop_learner_state loop_key_e].
  rewrite IHs. split; [reflexivity |]. rewrite IHk in E.
  change (key_e_at split_eval key_e (S n))
    with (fst (split_eval (key_e_at split_eval key_e n))).
  now rewrite E.
Qed.

(** What one pass of the loop evaluates and returns. *)
Lemma eval_step_body_at (n : nat) :
  body (loop n) n
  = {| loop_learner_state := state_at (S n);
       loop_key_e := key_e_at split_eval key_e (S n);
       max_episode_return :=
         if absolute_metric && max_le (max_episode_return (loop n)) (return_at n)
         then Some (return_at n) else max_episode_return (loop n);
       best_params :=
         if absolute_metric && max_le (max_episode_return (loop n)) (return_at n)
         then Some (params_at n) else best_params (loop n);
       eval_metrics := Some (evaluator (params_at n) (keys_at n));
       evaluated := evaluated (loop n) ++ [(params_at n, keys_at n)];
       saved :=
         if save_checkpoint
         then saved (loop n)
              ++ [((steps * (Z.of_nat n + 1))%Z, state_at (S n), return_at n)]
         else saved (loop n) |}.
Proof.
  destruct (evaluation_loop_state n) as [Hs Hk].
  unfold eval_step_body, episode_return_at, eval_keys_at.
  rewrite Hs, Hk.
  change (key_e_at split_eval key_e (S n))
    with (fst (split_eval (key_e_at split_eval key_e n))).
  now destruct (split_eval (key_e_at split_eval key_e n)) as [k' ks].
Qed.

(** X12: the parameters the loop hands to the evaluator at evaluation [i]
    are those of the learner state from before training block [i]: the
    initial parameters at the first evaluation, and never those of the
    learner state the loop ends with. A checkpoint saved at evaluation [i]
    holds the learner state from after block [i] with the episode return
    measured on the parameters from before it. *)
Theorem evaluation_loop_trace (num_evaluation : nat) :
  loop_learner_state (loop num_evaluation)
    = learner_state_at learn learner_state num_evaluation /\
  evaluated (loop num_evaluation)
    = map (fun i => (params_at i, keys_at i)) (seq 0 num_evaluation) /\
  saved (loop num_evaluation)
    = if save_checkpoint
      then map (fun i => ((steps * (Z.of_nat i + 1))%Z, state_at (S i), return_at i))
               (seq 0 num_evaluation)
      else [].
Proof.
  split; [apply evaluation_loop_state |].
  induction num_evaluation as [| n [IHe IHs]].
  - cbn. now destruct save_checkpoint.
  - rewrite evaluation_loop_S, eval_step_body_at. cbn [evaluated saved].
    rewrite seq_S, !map_app, IHe, IHs. cbn [map Nat.add].
    now destruct save_checkpoint.
Qed.

(** X13: with [absolute_metric] set, after at least one evaluation
    [best_params] holds the parameters of the latest evaluation whose
    episode return is the largest so far, and [max_episode_return] that
    return: a later evaluation that only ties replaces an earlier one. *)
Theorem best_params_latest_maximum (num_evaluation : nat) :
  absolute_metric = true -> (0 < num_evaluation)%nat ->
  exists j, (j < num_evaluation)%nat /\
    best_params (loop num_evaluation)
      = Some (trained_params_of (learner_state_at learn learner_state j)) /\
    max_episode_return (loop num_evaluation) = Some (return_at j) /\
    (forall i, (i < num_evaluation)%nat -> return_at i <= return_at j) /\
    (forall i, (j < i)%nat -> (i < num_evaluation)%nat ->
               return_at i < return_at j).
Proof.
  intros Habs. induction num_evaluation as [| n IH]; [lia |]. intros _.
  assert (Hand : forall b, absolute_metric && b = b) by (intros b; now rewrite Habs).
  rewrite evaluation_loop_S, eval_step_body_at, !Hand.
  cbn [best_params max_episode_return].
  destruct n as [| n].
  - exists 0%nat. cbn [max_le]. repeat split; try lia.
    + intros i Hi. replace i with 0%nat by lia. apply Rle_refl.
  - destruct (IH ltac:(lia)) as [j [Hj [Hb [Hm [Hle Hlt]]]]].
    rewrite Hm. cbn [max_le].
    destruct (Rle_dec (return_at j) (return_at (S n))) as [Hge | Hless].
    + exists (S n). repeat split; try lia.
      intros i Hi. destruct (Nat.eq_dec i (S n)) as [-> | Hne].
      * apply Rle_refl.
      * eapply Rle_trans; [apply Hle; lia | exact Hge].
    + exists j. apply Rnot_le_lt in Hless. repeat split; try lia; try assumption.
      * intros i Hi. destruct (Nat.eq_dec i (S n)) as [-> | Hne].
        -- now apply Rlt_le.
        -- apply Hle. lia.
      * intros i Hji Hi. destruct (Nat.eq_dec i (S n)) as [-> | Hne].
        -- exact Hless.
        -- apply Hlt; lia.
Qed.

(** Without [absolute_metric] the loop never sets [best_params]. *)
Lemma best_params_unset (num_evaluation : nat) :
  absolute_metric = false ->
  best_params (loop num_evaluation) = None /\
  max_episode_return (loop num_evaluation) = None.
Proof.
  intros Habs. induction num_evaluation as [| n [IHb IHm]]; [now split |].
  assert (Hand : forall b, absolute_metric && b = false) by (intros b; now rewrite Habs).
  rewrite evaluation_loop_S, eval_step_body_at, !Hand.
  cbn [best_params max_episode_return]. now split.
Qed.

End EvaluationLoopFacts.

(** *** Three evaluations with returns 1, 3, 3 *)

Section EvaluationLoopExample.

Local Open Scope R_scope.

(** The learner state counts the training blocks done, the parameters are
    those counts, and the episode returns of the parameters 0, 1, 2 are
    1, 3, 3. *)
Definition episode_return_ex (params : nat) : R :=
  match params with 0%nat => 1 | _ => 3 end.

Definition evaluation_loop_ex (num_evaluation : nat) : EvalLoop nat nat nat unit nat :=
  evaluation_loop S (fun learner_state => learner_state) (fun k => (S k, tt))
    (fun params _ => params) episode_return_ex true true 10 num_evaluation
    0%nat 0%nat.

Definition episode_return_at_ex (i : nat) : R :=
  episode_return_at S (fun learner_state => learner_state) (fun k => (S k, tt))
    (fun params _ => params) episode_return_ex 0%nat 0%nat i.

Example evaluation_loop_ex_best :
  best_params (evaluation_loop_ex 3) = Some 2%nat /\
  evaluated (evaluation_loop_ex 3) = [(0%nat, tt); (1%nat, tt); (2%nat, tt)] /\
  loop_learner_state (evaluation_loop_ex 3) = 3%nat.
Proof.
  unfold evaluation_loop_ex, evaluation_loop, eval_step_body, max_le, episode_return_ex.
  cbn. repeat (destruct (Rle_dec _ _) as [? | Hn]; [| exfalso; apply Hn; lra]).
  repeat split.
Qed.

Lemma best_params_latest_maximum_witness :
  exists j, (j < 3)%nat /\
    best_params (evaluation_loop_ex 3) = Some (learner_state_at S 0%nat j) /\
    max_episode_return (evaluation_loop_ex 3) = Some (episode_return_at_ex j) /\
    (forall i, (i < 3)%nat -> episode_return_at_ex i <= episode_return_at_ex j) /\
    (forall i, (j < i)%nat -> (i < 3)%nat ->
               episode_return_at_ex i < episode_return_at_ex j).
Proof.
  exact (@best_params_latest_maximum nat nat nat unit nat S
           (fun learner_state => learner_state) (fun k => (S k, tt))
           (fun params _ => params) episode_return_ex true true 10
           0%nat 0%nat 3 eq_refl ltac:(lia)).
Defined.

End EvaluationLoopExample.

(** ** The number of updates per evaluation *)

(** X14: [run_experiment] rejects a number of evaluations that is not below
    the number of updates; with no evaluation at all and some updates the
    assertion passes and the division raises; otherwise every training
    block runs at least one update, and the blocks together run at most
    [num_updates] updates and fall short of them by less than
    [num_evaluation]. *)
Theorem num_updates_per_eval_cases (num_updates num_evaluation : Z) :
  ((num_updates <= num_evaluation)%Z ->
   num_updates_per_eval num_updates num_evaluation
   = Raise (AssertionError updates_msg)) /\
  (num_evaluation = 0%Z -> (0 < num_updates)%Z ->
   num_updates_per_eval num_updates num_evaluation = Raise ZeroDivisionError) /\
  ((0 < num_evaluation < num_updates)%Z ->
   exists q : Z,
     num_updates_per_eval num_updates num_evaluation = Return q /\
     (1 <= q)%Z /\
     (num_evaluation * q <= num_updates)%Z /\
     (num_updates - num_evaluation < num_evaluation * q)%Z).
Proof.
  unfold num_updates_per_eval, py_assert, py_floordiv. repeat split.
  - intros Hle. destruct (Z.ltb_spec num_evaluation num_updates); [lia | reflexivity].
  - intros -> Hpos. destruct (Z.ltb_spec 0 num_updates); [reflexivity | lia].
  - intros [Hpos Hlt].
    destruct (Z.ltb_spec num_evaluation num_updates); [| lia]. cbn [bind].
    destruct (Z.eqb_spec num_evaluation 0); [lia |].
    exists (num_updates / num_evaluation)%Z. split; [reflexivity |].
    pose proof (Z.div_mod num_updates num_evaluation ltac:(lia)) as Hdm.
    pose proof (Z.mod_pos_bound num_updates num_evaluation Hpos) as Hmod.
    repeat split; nia.
Qed.

(** ** What a minibatch holds *)

Section MinibatchEntries.

Variable A : Type.
Variable fill : A.

Lemma nth_map_in_range (B C : Type) (f : B -> C) (l : list B) (i : nat) (d : C)
  (d' : B) :
  i < length l -> nth i (map f l) d = f (nth i l d').
Proof.
  intros Hi. rewrite (nth_indep _ d (f d')) by now rewrite length_map.
  apply map_nth.
Qed.

Lemma nth_map_seq_in_range (C : Type) (f : nat -> C) (n i : nat) (d : C) :
  i < n -> nth i (map f (seq 0 n)) d = f i.
Proof.
  intros Hi. rewrite (@nth_map_in_range _ _ f _ i d 0) by now rewrite length_seq.
  now rewrite seq_nth.
Qed.

(** Entry [(c, b)] of the reshaped batch, read by rows. *)
Lemma reshape_nth (rollout_len chunk_size n_envs : nat) (x y : list (list A))
  (c b : nat) :
  0 < n_envs -> shape2 rollout_len n_envs x ->
  reshape chunk_size (batch_extent rollout_len chunk_size n_envs) x = Some y ->
  c < chunk_size -> b < batch_extent rollout_len chunk_size n_envs ->
  nth b (nth c y []) fill
  = nth (b mod n_envs)
        (nth (c * num_recurrent_chunks rollout_len chunk_size + b / n_envs) x [])
        fill.
Proof.
  intros Hn [Hlen Hrows] Hre Hc Hb. unfold reshape in Hre.
  destruct (length (concat x) =? _); [| discriminate]. injection Hre as <-.
  rewrite nth_chunks by assumption.
  rewrite (nth_concat _ _ Hn Hrows). unfold batch_extent.
  set (K := num_recurrent_chunks rollout_len chunk_size).
  replace (c * (n_envs * K) + b) with (c * K * n_envs + b) by lia.
  rewrite Nat.div_add_l by lia.
  rewrite (Nat.add_comm (c * K * n_envs)), Nat.Div0.mod_add.
  reflexivity.
Qed.

(** Entry [(m, c, k)] of the minibatches, in the reshaped batch. *)
Lemma minibatches_nth (rollout_len chunk_size n_envs n_minibatches : nat)
  (permutation : list nat) (x batch : list (list A))
  (minibatches : list (list (list A))) (m c k : nat) :
  reshape chunk_size (batch_extent rollout_len chunk_size n_envs) x = Some batch ->
  length batch = chunk_size ->
  minibatches_of rollout_len chunk_size n_envs n_minibatches fill permutation x
    = Some minibatches ->
  m < n_minibatches -> c < chunk_size ->
  k < length permutation / n_minibatches ->
  nth k (nth c (nth m minibatches []) []) fill
  = nth (nth (m * (length permutation / n_minibatches) + k) permutation 0)
        (nth c batch []) fill.
Proof.
  intros Hre Hlen Hmb Hm Hc Hk. unfold minibatches_of in Hmb. rewrite Hre in Hmb.
  unfold reshape_split in Hmb.
  destruct (Nat.eqb_spec n_minibatches 0) as [| Hn0]; [discriminate |].
  cbn [orb] in Hmb.
  destruct (Nat.eqb_spec (length permutation mod n_minibatches) 0) as [Hmod |];
    [| discriminate].
  cbn [negb] in Hmb. injection Hmb as <-.
  set (w := length permutation / n_minibatches) in *.
  assert (Hw : length permutation = n_minibatches * w).
  { unfold w. now apply Nat.Div0.div_exact. }
  unfold swapaxes. rewrite nth_map_seq_in_range by assumption.
  rewrite column_nth by (unfold take_axis1; now rewrite !length_map, Hlen).
  unfold take_axis1. rewrite map_map.
  rewrite (@nth_map_in_range _ _ _ batch c [] []) by now rewrite Hlen.
  rewrite nth_chunks by assumption.
  apply (@nth_map_in_range _ _ (fun j => nth j (nth c batch []) fill)). nia.
Qed.

End MinibatchEntries.

(** X15: what the shuffler puts where. Entry [c] of column [k] of minibatch
    [m] is the entry of environment [p mod num_envs] at time step
    [c * (H / C) + p / num_envs], for [p] the number the permutation holds
    at place [m * w + k], [w] being the number of columns of a minibatch.
    When the chunk size is the rollout length, as it is when the
    configuration leaves it unset, [p] is an environment and the column is
    its whole trajectory in time order. *)
Theorem minibatches_entry (rollout_len chunk_size n_envs n_minibatches : nat)
  (A : Type) (fill : A) (permutation : list nat) (x : list (list A))
  (minibatches : list (list (list A))) (m c k : nat) :
  0 < chunk_size -> rollout_len mod chunk_size = 0 ->
  0 < n_envs -> shape2 rollout_len n_envs x ->
  Permutation permutation (seq 0 (batch_extent rollout_len chunk_size n_envs)) ->
  minibatches_of rollout_len chunk_size n_envs n_minibatches fill permutation x
    = Some minibatches ->
  m < n_minibatches -> c < chunk_size ->
  k < batch_extent rollout_len chunk_size n_envs / n_minibatches ->
  let p :=
    nth (m * (batch_extent rollout_len chunk_size n_envs / n_minibatches) + k)
        permutation 0 in
  nth k (nth c (nth m minibatches []) []) fill
  = nth (p mod n_envs)
        (nth (c * num_recurrent_chunks rollout_len chunk_size + p / n_envs) x [])
        fill /\
  (chunk_size = rollout_len ->
   p < n_envs /\
   nth k (nth c (nth m minibatches []) []) fill = nth p (nth c x []) fill).
Proof.
  intros Hcs Hdiv Hn Hx Hperm Hmb Hm Hc Hk p.
  set (N := batch_extent rollout_len chunk_size n_envs) in *.
  pose proof (Permutation_length Hperm) as Hplen. rewrite length_seq in Hplen.
  assert (Hsize : rollout_len * n_envs = chunk_size * N).
  { unfold N, batch_extent, num_recurrent_chunks.
    apply Nat.Div0.div_exact in Hdiv. nia. }
  edestruct (@reshape_shape A) as [batch [Hre [[Hblen _] _]]];
    [exact Hx | exact Hsize |].
  assert (Hmod : N mod n_minibatches = 0).
  { unfold minibatches_of in Hmb. fold N in Hmb. rewrite Hre in Hmb.
    unfold reshape_split in Hmb. rewrite Hplen in Hmb.
    destruct (n_minibatches =? 0); [discriminate |]. cbn [orb] in Hmb.
    destruct (Nat.eqb_spec (N mod n_minibatches) 0); [assumption | discriminate]. }
  assert (Hin : m * (N / n_minibatches) + k < N).
  { apply Nat.Div0.div_exact in Hmod. nia. }
  assert (Hp : p < N).
  { assert (Hmem : In p permutation)
      by (apply nth_In; now rewrite Hplen).
    apply (Permutation_in _ Hperm), in_seq in Hmem. lia. }
  assert (Hentry :
    nth k (nth c (nth m minibatches []) []) fill
    = nth (p mod n_envs)
          (nth (c * num_recurrent_chunks rollout_len chunk_size + p / n_envs) x [])
          fill).
  { rewrite (@minibatches_nth A fill rollout_len chunk_size n_envs n_minibatches
               permutation x batch minibatches m c k Hre Hblen Hmb Hm Hc)
      by now rewrite Hplen.
    rewrite Hplen. fold p.
    exact (@reshape_nth A fill rollout_len chunk_size n_envs x batch c p Hn Hx Hre
             Hc Hp). }
  split; [exact Hentry |].
  intros Hfull. rewrite Hentry.
  assert (HK : num_recurrent_chunks rollout_len chunk_size = 1).
  { unfold num_recurrent_chunks. rewrite Hfull. apply Nat.div_same. lia. }
  assert (HN : N = n_envs) by (unfold N, batch_extent; rewrite HK; lia).
  split; [lia |].
  rewrite HK, Nat.mod_small, Nat.div_small by lia. f_equal. f_equal. lia.
Qed.

(** [rollout_length=4], [recurrent_chunk_size=2], two environments, two
    minibatches: entry 1 of column 0 of minibatch 1 is environment 0 at
    step 2. *)
Lemma minibatches_entry_witness :
  let p := nth (1 * (batch_extent 4 2 2 / 2) + 0) [1; 3; 0; 2] 0 in
  nth 0 (nth 1 (nth 1 [ [[1; 11]; [21; 31]]; [[0; 10]; [20; 30]] ] []) []) 0
  = nth (p mod 2)
        (nth (1 * num_recurrent_chunks 4 2 + p / 2)
             [[0; 1]; [10; 11]; [20; 21]; [30; 31]] []) 0 /\
  (2 = 4 ->
   p < 2 /\
   nth 0 (nth 1 (nth 1 [ [[1; 11]; [21; 31]]; [[0; 10]; [20; 30]] ] []) []) 0
   = nth p (nth 1 [[0; 1]; [10; 11]; [20; 21]; [30; 31]] []) 0).
Proof.
  apply (@minibatches_entry 4 2 2 2 nat 0 [1; 3; 0; 2]
           [[0; 1]; [10; 11]; [20; 21]; [30; 31]]);
    try reflexivity; try (cbn; lia).
  - split; [reflexivity | repeat constructor].
  - apply (Permutation_cons_app [0] [2; 3]).
    apply (Permutation_cons_app [0; 2] []).
    apply Permutation_refl.
Defined.

(** ** The epochs of an update step (lines 295-350) *)

Section UpdateEpoch.

Variables (n_devices update_batch_size : nat).
Variables (ActorParams CriticParams ActorOpt CriticOpt Key : Type).
Variables (ActorGrads CriticGrads : Type).

(** [(traj_batch, advantages, targets)] as an update step collected them,
    and one minibatch of them. *)
Variables (Batch BatchInfo : Type).

(** [update_state] without its batch, and with it. *)
Local Abbreviation TrainState :=
  (Params ActorParams CriticParams * OptStates ActorOpt CriticOpt * Key)%type.
Local Abbreviation UpdateState :=
  (Params ActorParams CriticParams * OptStates ActorOpt CriticOpt * Batch * Key)%type.

(** [jax.random.split(key)] and [jax.random.split(key, 3)]. *)
Variable split : Key -> Key * Key.
Variable split3 : Key -> Key * Key * Key.

Variable actor_grad_fn :
  ActorParams -> BatchInfo -> Key -> (R * (R * R)) * ActorGrads.
Variable critic_grad_fn : CriticParams -> BatchInfo -> (R * R) * CriticGrads.
Variable actor_mean : list (ActorGrads * (R * (R * R))) -> ActorGrads * (R * (R * R)).
Variable critic_mean : list (CriticGrads * (R * R)) -> CriticGrads * (R * R).
Variable actor_update_fn : ActorGrads -> ActorOpt -> ActorGrads * ActorOpt.
Variable critic_update_fn : CriticGrads -> CriticOpt -> CriticGrads * CriticOpt.
Variable actor_apply_updates : ActorParams -> ActorGrads -> ActorParams.
Variable critic_apply_updates : CriticParams -> CriticGrads -> CriticParams.

(** [config.system.num_minibatches], and minibatch [i] of the shuffle of
    lines 298-321 for the permutation drawn from a shuffle key. *)
Variable n_minibatches : nat.
Variable minibatch_at : Key -> Batch -> nat -> BatchInfo.

(** The [minibatches] every replica scans over, and the carry
    [(params, opt_states, entropy_key)] its scan starts from. *)
Definition epoch_minibatches (update_state : Replicated UpdateState) :
  list (Replicated BatchInfo) :=
  map (fun i d b =>
         let '(_, _, batch, key) := update_state d b in
         let '(_, shuffle_key, _) := split3 key in
         minibatch_at shuffle_key batch i)
      (seq 0 n_minibatches).

Definition epoch_train_state (update_state : Replicated UpdateState) :
  Replicated TrainState :=
  fun d b =>
    let '(params, opt_states, _, key) := update_state d b in
    let '(_, _, entropy_key) := split3 key in
    (params, opt_states, entropy_key).

(** [_update_epoch], run by all replicas at once; of its two results the
    new [update_state] is kept. *)
Definition _update_epoch (update_state : Replicated UpdateState) :
  Replicated UpdateState :=
  (* Update minibatches. *)
  let train_state' :=
    scan_minibatches n_devices update_batch_size split actor_grad_fn critic_grad_fn
      actor_mean critic_mean actor_update_fn critic_update_fn
      actor_apply_updates critic_apply_updates
      (epoch_train_state update_state) (epoch_minibatches update_state) in
  fun d b =>
    let '(_, _, batch, key) := update_state d b in
    let '(key', _, _) := split3 key in
    let '(params, opt_states, _) := train_state' d b in
    (params, opt_states, batch, key').

(** [jax.lax.scan(_update_epoch, update_state, None,
    config.system.ppo_epochs)]. *)
Definition update_epochs (ppo_epochs : nat) (update_state : Replicated UpdateState) :
  Replicated UpdateState :=
  Nat.iter ppo_epochs _update_epoch update_state.

(** The parts of an update state. *)
Definition train_state_of (update_state : Replicated UpdateState) :
  Replicated TrainState :=
  fun d b => let '(params, opt_states, _, key) := update_state d b in
             (params, opt_states, key).
Definition batch_of (s : UpdateState) : Batch := snd (fst s).
Definition key_of (s : UpdateState) : Key := snd s.

(** The key and the shuffle key of epoch [j], from the key the epochs start
    with. *)
Definition epoch_key (key : Key) (j : nat) : Key :=
  Nat.iter j (fun k => fst (fst (split3 k))) key.
Definition shuffle_key_of (key : Key) (j : nat) : Key :=
  snd (fst (split3 (epoch_key key j))).

End UpdateEpoch.

Section UpdateEpochFacts.

Variables (n_devices update_batch_size : nat).
Variables (ActorParams CriticParams ActorOpt CriticOpt Key : Type).
Variables (ActorGrads CriticGrads Batch BatchInfo : Type).
Variable split : Key -> Key * Key.
Variable split3 : Key -> Key * Key * Key.
Variable actor_grad_fn :
  ActorParams -> BatchInfo -> Key -> (R * (R * R)) * ActorGrads.
Variable critic_grad_fn : CriticParams -> BatchInfo -> (R * R) * CriticGrads.
Variable actor_mean : list (ActorGrads * (R * (R * R))) -> ActorGrads * (R * (R * R)).
Variable critic_mean : list (CriticGrads * (R * R)) -> CriticGrads * (R * R).
Variable actor_update_fn : ActorGrads -> ActorOpt -> ActorGrads * ActorOpt.
Variable critic_update_fn : CriticGrads -> CriticOpt -> CriticGrads * CriticOpt.
Variable actor_apply_updates : ActorParams -> ActorGrads -> ActorParams.
Variable critic_apply_updates : CriticParams -> CriticGrads -> CriticParams.
Variable n_minibatches : nat.
Variable minibatch_at : Key -> Batch -> nat -> BatchInfo.

Local Abbreviation TrainState :=
  (Params ActorParams CriticParams * OptStates ActorOpt CriticOpt * Key)%type.
Local Abbreviation UpdateState :=
  (Params ActorParams CriticParams * OptStates ActorOpt CriticOpt * Batch * Key)%type.

Local Abbreviation scan_fn :=
  (@scan_minibatches n_devices update_batch_size ActorParams CriticParams
     ActorOpt CriticOpt Key ActorGrads CriticGrads BatchInfo split actor_grad_fn
     critic_grad_fn actor_mean critic_mean actor_update_fn critic_update_fn
     actor_apply_updates critic_apply_updates).
Local Abbreviation update_epoch :=
  (@_update_epoch n_devices update_batch_size ActorParams CriticParams
     ActorOpt CriticOpt Key ActorGrads CriticGrads Batch BatchInfo split split3
     actor_grad_fn critic_grad_fn actor_mean critic_mean actor_update_fn
     critic_update_fn actor_apply_updates critic_apply_updates n_minibatches
     minibatch_at).
Local Abbreviation epochs :=
  (@update_epochs n_devices update_batch_size ActorParams CriticParams
     ActorOpt CriticOpt Key ActorGrads CriticGrads Batch BatchInfo split split3
     actor_grad_fn critic_grad_fn actor_mean critic_mean actor_update_fn
     critic_update_fn actor_apply_updates critic_apply_updates n_minibatches
     minibatch_at).
Local Abbreviation minibatches_in us :=
  (@epoch_minibatches ActorParams CriticParams ActorOpt CriticOpt Key Batch
     BatchInfo split3 n_minibatches minibatch_at us).
Local Abbreviation carry_in us :=
  (@epoch_train_state ActorParams CriticParams ActorOpt CriticOpt Key Batch
     split3 us).
Local Abbreviation train_of us :=
  (@train_state_of ActorParams CriticParams ActorOpt CriticOpt Key Batch us).
Local Abbreviation params_at s :=
  (@params_of ActorParams CriticParams ActorOpt CriticOpt Key s).
Local Abbreviation opt_states_at s :=
  (@opt_states_of ActorParams CriticParams ActorOpt CriticOpt Key s).
Local Abbreviation batch_at s :=
  (@batch_of ActorParams CriticParams ActorOpt CriticOpt Key Batch s).
Local Abbreviation key_at s :=
  (@key_of ActorParams CriticParams ActorOpt CriticOpt Key Batch s).

(** Two replicas that enter a run of minibatch updates with the same
    parameters and optimiser states leave it with the same. *)
Lemma scan_minibatches_pair (minibatches : list (Replicated BatchInfo))
  (d b d' b' : nat) :
  forall train_state : Replicated TrainState,
  params_at (train_state d b) = params_at (train_state d' b') ->
  opt_states_at (train_state d b) = opt_states_at (train_state d' b') ->
  params_at (scan_fn train_state minibatches d b)
    = params_at (scan_fn train_state minibatches d' b') /\
  opt_states_at (scan_fn train_state minibatches d b)
    = opt_states_at (scan_fn train_state minibatches d' b').
Proof.
  induction minibatches as [| batch_info rest IH]; intros train_state Hp Ho;
    [now split |].
  cbn [scan_minibatches].
  destruct (@update_minibatch_pair n_devices update_batch_size ActorParams
              CriticParams ActorOpt CriticOpt Key ActorGrads CriticGrads BatchInfo
              split actor_grad_fn critic_grad_fn actor_mean critic_mean
              actor_update_fn critic_update_fn actor_apply_updates
              critic_apply_updates train_state batch_info d b d' b' Hp Ho)
    as [Hp' [Ho' _]].
  now apply IH.
Qed.

(** The parts of the carry of an epoch, of an update state, and of what an
    epoch leaves. *)
Lemma epoch_train_state_parts (update_state : Replicated UpdateState) (d b : nat) :
  params_at (carry_in update_state d b) = params_at (train_of update_state d b) /\
  opt_states_at (carry_in update_state d b)
    = opt_states_at (train_of update_state d b).
Proof.
  unfold epoch_train_state, train_state_of.
  destruct (update_state d b) as [[[p o] bt] k].
  now destruct (split3 k) as [[k1 k2] k3].
Qed.

Lemma update_epoch_parts (update_state : Replicated UpdateState) (d b : nat) :
  let train_state' :=
    scan_fn (carry_in update_state) (minibatches_in update_state) in
  params_at (train_of (update_epoch update_state) d b)
    = params_at (train_state' d b) /\
  opt_states_at (train_of (update_epoch update_state) d b)
    = opt_states_at (train_state' d b) /\
  batch_at (update_epoch update_state d b) = batch_at (update_state d b) /\
  key_at (update_epoch update_state d b)
    = fst (fst (split3 (key_at (update_state d b)))).
Proof.
  cbv zeta. unfold train_state_of, _update_epoch, batch_of, key_of.
  destruct (update_state d b) as [[[p o] bt] k]. cbn [fst snd].
  destruct (split3 k) as [[k1 k2] k3].
  destruct (scan_fn _ _ d b) as [[p' o'] k'].
  repeat split.
Qed.

Lemma update_epochs_S (ppo_epochs : nat) (update_state : Replicated UpdateState) :
  epochs (S ppo_epochs) update_state = update_epoch (epochs ppo_epochs update_state).
Proof. reflexivity. Qed.

(** X16: the replicas stay in step through the epochs of an update step:
    when all of them enter with identical parameters and optimiser states,
    all of them leave every epoch with identical ones, whatever their
    batches, keys and shuffles are. *)
Theorem update_epochs_in_sync (ppo_epochs : nat)
  (update_state : Replicated UpdateState) :
  in_sync n_devices update_batch_size (train_of update_state) ->
  in_sync n_devices update_batch_size (train_of (epochs ppo_epochs update_state)).
Proof.
  intros Hsync. induction ppo_epochs as [| n IH]; [exact Hsync |].
  rewrite update_epochs_S.
  intros d b d' b' Hd Hb Hd' Hb'.
  destruct (IH d b d' b' Hd Hb Hd' Hb') as [Hp Ho].
  set (us := epochs n update_state) in *.
  destruct (update_epoch_parts us d b) as [-> [-> _]].
  destruct (update_epoch_parts us d' b') as [-> [-> _]].
  destruct (epoch_train_state_parts us d b) as [Hp1 Ho1].
  destruct (epoch_train_state_parts us d' b') as [Hp2 Ho2].
  apply scan_minibatches_pair; congruence.
Qed.

(** X17: the epochs of an update step work on one batch: a replica leaves
    them with the trajectory, advantages and targets it entered with, and
    its key is the incoming key split once per epoch. In epoch [j] the
    minibatches of every replica are those of the shuffle of that batch by
    the shuffle key of the [j]-th split, so that replicas that enter with
    one key shuffle alike. *)
Theorem update_epochs_batch_and_key (ppo_epochs : nat)
  (update_state : Replicated UpdateState) :
  (forall d b,
     batch_at (epochs ppo_epochs update_state d b) = batch_at (update_state d b) /\
     key_at (epochs ppo_epochs update_state d b)
       = epoch_key split3 (key_at (update_state d b)) ppo_epochs) /\
  Forall2
    (fun (minibatch : Replicated BatchInfo) (i : nat) =>
       forall d b,
         minibatch d b
         = minibatch_at
             (shuffle_key_of split3 (key_at (update_state d b)) ppo_epochs)
             (batch_at (update_state d b)) i)
    (minibatches_in (epochs ppo_epochs update_state)) (seq 0 n_minibatches).
Proof.
  assert (Hparts : forall n d b,
    batch_at (epochs n update_state d b) = batch_at (update_state d b) /\
    key_at (epochs n update_state d b)
      = epoch_key split3 (key_at (update_state d b)) n).
  { induction n as [| n IH]; intros d b; [now split |].
    rewrite update_epochs_S.
    destruct (update_epoch_parts (epochs n update_state) d b) as [_ [_ [-> ->]]].
    destruct (IH d b) as [-> ->]. now split. }
  split; [apply Hparts |].
  unfold epoch_minibatches.
  induction (seq 0 n_minibatches) as [| i l IH]; cbn [map]; constructor;
    [| exact IH].
  intros d b. destruct (Hparts ppo_epochs d b) as [Hb Hk].
  unfold batch_of, key_of, shuffle_key_of in *.
  destruct (epochs ppo_epochs update_state d b) as [[[p o] bt] k].
  cbn [fst snd] in Hb, Hk. subst bt k.
  now destruct (split3 _) as [[k1 k2] k3].
Qed.

End UpdateEpochFacts.

(** *** Three epochs of two minibatches on four replicas *)

Section UpdateEpochExample.

Local Open Scope R_scope.

Definition split3_ex (k : nat) : nat * nat * nat :=
  (3 * k + 1, 3 * k + 2, 3 * k + 3)%nat.

(** The replicas enter with the same parameters, and with a batch and a key
    of their own; a minibatch depends on the batch, the shuffle key and its
    rank. *)
Definition update_state_ex : Replicated (Params R R * OptStates nat nat * R * nat) :=
  fun d b =>
    ({| actor_params := 1; critic_params := 2 |},
     {| actor_opt_state := 0%nat; critic_opt_state := 0%nat |},
     INR (d + 2 * b), (d + 2 * b)%nat).
Definition minibatch_at_ex (shuffle_key : nat) (batch : R) (i : nat) : R :=
  batch + INR shuffle_key + INR i.

Definition update_epochs_ex (ppo_epochs : nat) :
  Replicated (Params R R * OptStates nat nat * R * nat) :=
  @update_epochs 2 2 R R nat nat nat R R R R split_ex split3_ex actor_grad_ex
    critic_grad_ex actor_mean_ex critic_mean_ex sgd_ex sgd_ex Rplus Rplus 2
    minibatch_at_ex ppo_epochs update_state_ex.

Lemma update_epochs_in_sync_witness :
  in_sync 2 2 (train_state_of (update_epochs_ex 3)).
Proof.
  apply update_epochs_in_sync.
  intros d b d' b' _ _ _ _. split; reflexivity.
Defined.

End UpdateEpochExample.

(** ** The initial learner state of [learner_setup] (lines 478-534) *)

Section LearnerSetup.

Variables (P OptStates Key EnvState TimeStep HStates : Type).

(** [jax.random.split(key, num)], [jax.random.split(key)] and
    [env.reset]. *)
Variable split_num : Key -> nat -> list Key.
Variable split : Key -> Key * Key.
Variable reset : Key -> EnvState * TimeStep.

(** [len(jax.devices())], [config.system.update_batch_size],
    [config.arch.num_envs] and [env.num_agents]. *)
Variables (n_devices update_batch_size n_envs num_agents : nat).

(** [config.logger.checkpointing.load_model], and
    [loaded_checkpoint.restore_params]. *)
Variable load_model : bool.
Variable restore_params : P -> P * option HStates.

(** What a replica holds: the states and timesteps of its environments, and
    one done flag per environment and agent. *)
Local Abbreviation LearnerState :=
  (RNNLearnerState P OptStates Key (list EnvState) (list TimeStep)
     (list (list bool)) HStates).

(** [x.reshape((n_devices, update_batch_size, num_envs) + x.shape[1:])];
    [None] stands for the error raised when the sizes do not match. *)
Definition reshape_states (A : Type) (x : list A) : option (list (list (list A))) :=
  if length x =? n_devices * update_batch_size * n_envs
  then Some (chunks update_batch_size
               (chunks n_envs x (n_devices * update_batch_size)) n_devices)
  else None.

(** Lines 478-534, from the initialised parameters, optimiser states and
    hidden states: the learner state that replica [(d, b)] starts with.
    [None] stands for an error: unpacking no key, stacking no environment
    key, or a failing reshape. *)
Definition init_learner_state (params : P) (opt_states : OptStates)
  (hstates : HStates) (key : Key) : option (Replicated LearnerState) :=
  (* Load model from checkpoint if specified. *)
  let '(params, hstates) :=
    if load_model
    then let '(restored_params, restored_hstates) := restore_params params in
         (restored_params,
          match restored_hstates with Some h => h | None => hstates end)
    else (params, hstates) in
  (* Initialise environment states and timesteps: across devices and batches. *)
  match split_num key (n_devices * update_batch_size * n_envs + 1) with
  | [] => None
  | _ :: [] => None
  | key :: env_keys =>
      let reset_all := map reset env_keys in
      match reshape_states (map fst reset_all), reshape_states (map snd reset_all) with
      | Some env_states, Some timesteps =>
          (* Define params to be replicated across devices and batches. *)
          let dones' := repeat (repeat false num_agents) n_envs in
          let '(_, step_keys) := split key in
          Some (fun d b =>
                  {| params := params; opt_states := opt_states; key := step_keys;
                     env_state := nth b (nth d env_states []) [];
                     timestep := nth b (nth d timesteps []) [];
                     dones := dones'; learner_hstates := hstates |})
      | _, _ => None
      end
  end.

End LearnerSetup.

Section LearnerSetupFacts.

Variables (P OptStates Key EnvState TimeStep HStates : Type).
Variable split_num : Key -> nat -> list Key.
Variable split : Key -> Key * Key.
Variable reset : Key -> EnvState * TimeStep.
Variables (n_devices update_batch_size n_envs num_agents : nat).
Variable load_model : bool.
Variable restore_params : P -> P * option HStates.

(** Slot [(d, b, e)] of a reshaped array is entry [(d * B + b) * N + e] of
    the flat one. *)
Lemma reshape_states_nth (A : Type) (x : list A) (y : list (list (list A)))
  (d b e : nat) (k : A) :
  reshape_states n_devices update_batch_size n_envs x = Some y ->
  d < n_devices -> b < update_batch_size -> e < n_envs ->
  nth_error x ((d * update_batch_size + b) * n_envs + e) = Some k ->
  nth_error (nth b (nth d y []) []) e = Some k.
Proof.
  unfold reshape_states. intros Hre Hd Hb He Hk.
  destruct (Nat.eqb_spec (length x) (n_devices * update_batch_size * n_envs))
    as [Hlen |]; [| discriminate].
  injection Hre as <-.
  rewrite (@nth_chunks (list A) [] update_batch_size n_devices _ d b Hd Hb).
  assert (Hrow : d * update_batch_size + b < n_devices * update_batch_size) by nia.
  pose proof (@chunks_row_length A n_envs (n_devices * update_batch_size) x Hlen)
    as Hrows.
  rewrite Forall_forall in Hrows.
  assert (Hlen' :
    length (nth (d * update_batch_size + b)
                (chunks n_envs x (n_devices * update_batch_size)) []) = n_envs).
  { apply Hrows, nth_In. now rewrite length_chunks. }
  rewrite (nth_error_nth' _ k) by now rewrite Hlen'.
  rewrite (@nth_chunks A k n_envs (n_devices * update_batch_size) x _ e Hrow He).
  f_equal. now apply nth_error_nth.
Qed.

(** X18: when the split yields the keys it is asked for and there is at
    least one environment slot, [learner_setup] builds an initial learner
    state in which every replica holds the same parameters, optimiser
    states, hidden states and PRNG key, and all-false done flags of shape
    [(num_envs, num_agents)]; environment [e] of replica [(d, b)] is reset
    with environment key [(d * B + b) * N + e], a key of its own. *)
Theorem init_learner_state_spec (params0 : P) (opt_states0 : OptStates)
  (hstates0 : HStates) (key0 : Key) :
  let keys := split_num key0 (n_devices * update_batch_size * n_envs + 1) in
  length keys = n_devices * update_batch_size * n_envs + 1 ->
  0 < n_devices * update_batch_size * n_envs ->
  exists init,
    init_learner_state split_num split reset n_devices update_batch_size n_envs
      num_agents load_model restore_params params0 opt_states0 hstates0 key0
    = Some init /\
    (forall d b,
       params (init d b)
         = (if load_model then fst (restore_params params0) else params0) /\
       opt_states (init d b) = opt_states0 /\
       learner_hstates (init d b)
         = (if load_model
            then match snd (restore_params params0) with
                 | Some h => h
                 | None => hstates0
                 end
            else hstates0) /\
       key (init d b) = snd (split (hd key0 keys)) /\
       dones (init d b) = repeat (repeat false num_agents) n_envs) /\
    (forall d b e k,
       d < n_devices -> b < update_batch_size -> e < n_envs ->
       nth_error (tl keys) ((d * update_batch_size + b) * n_envs + e) = Some k ->
       nth_error (env_state (init d b)) e = Some (fst (reset k)) /\
       nth_error (timestep (init d b)) e = Some (snd (reset k))).
Proof.
  intros keys Hlen Hpos. unfold init_learner_state. fold keys.
  assert (Hp : exists p h,
    (if load_model
     then let '(restored_params, restored_hstates) := restore_params params0 in
          (restored_params,
           match restored_hstates with Some h => h | None => hstates0 end)
     else (params0, hstates0)) = (p, h) /\
    p = (if load_model then fst (restore_params params0) else params0) /\
    h = (if load_model
         then match snd (restore_params params0) with
              | Some h => h
              | None => hstates0
              end
         else hstates0)).
  { destruct load_model; [| now eexists _, _].
    destruct (restore_params params0) as [rp rh]. now eexists _, _. }
  destruct Hp as [p [h [-> [Hpe Hhe]]]].
  destruct keys as [| key1 [| env_key env_keys]] eqn:Hkeys;
    [cbn in Hlen; lia | cbn in Hlen; lia |].
  cbn [length] in Hlen.
  set (ek := env_key :: env_keys) in *.
  assert (Hek : length ek = n_devices * update_batch_size * n_envs)
    by (unfold ek; cbn [length]; lia).
  unfold reshape_states at 1 2. rewrite !length_map, Hek, Nat.eqb_refl.
  destruct (split key1) as [key' step_keys] eqn:Hsplit.
  eexists. split; [reflexivity |]. split.
  - intros d b. cbn [params opt_states learner_hstates key dones hd].
    rewrite Hsplit. repeat split; assumption.
  - intros d b e k Hd Hb He Hk. cbn [tl] in Hk. cbn [env_state timestep].
    split.
    + apply (@reshape_states_nth _ (map fst (map reset ek)) _ d b e (fst (reset k)));
        try assumption.
      * unfold reshape_states. now rewrite !length_map, Hek, Nat.eqb_refl.
      * rewrite map_map, nth_error_map, Hk. reflexivity.
    + apply (@reshape_states_nth _ (map snd (map reset ek)) _ d b e (snd (reset k)));
        try assumption.
      * unfold reshape_states. now rewrite !length_map, Hek, Nat.eqb_refl.
      * rewrite map_map, nth_error_map, Hk. reflexivity.
Qed.

End LearnerSetupFacts.

(** *** Two devices, one batch replica each, two environments *)

Section LearnerSetupExample.

Definition split_num_ex (k num : nat) : list nat := map (fun i => k + i) (seq 1 num).
Definition reset_ex (k : nat) : nat * nat := (10 * k, 100 * k).

Definition init_learner_state_ex :
  option (Replicated (RNNLearnerState unit unit nat (list nat) (list nat)
                        (list (list bool)) unit)) :=
  init_learner_state split_num_ex split_ex reset_ex 2 1 2 3 false
    (fun p => (p, None)) tt tt tt 0.

Lemma init_learner_state_spec_witness :
  exists init,
    init_learner_state_ex = Some init /\
    (forall d b,
       params (init d b) = tt /\
       opt_states (init d b) = tt /\
       learner_hstates (init d b) = tt /\
       key (init d b) = snd (split_ex 1) /\
       dones (init d b) = repeat (repeat false 3) 2) /\
    (forall d b e k,
       d < 2 -> b < 1 -> e < 2 ->
       nth_error [2; 3; 4; 5] ((d * 1 + b) * 2 + e) = Some k ->
       nth_error (env_state (init d b)) e = Some (fst (reset_ex k)) /\
       nth_error (timestep (init d b)) e = Some (snd (reset_ex k))).
Proof.
  exact (@init_learner_state_spec unit unit nat nat nat unit split_num_ex split_ex
           reset_ex 2 1 2 3 false (fun p => (p, None)) tt tt tt 0 eq_refl
           ltac:(cbn; lia)).
Defined.

End LearnerSetupExample.

(** ** What the losses are worth at the start of an update *)

Section LossBounds.

Local Open Scope R_scope.

Variables (ActorParams CriticParams PolicyH CriticH : Type).
Variables (ObsArr DoneArr ActionArr RewardArr Policy Key : Type).
Variable actor_apply_fn :
  ActorParams -> PolicyH -> ObsArr * DoneArr -> PolicyH * Policy.
Variable critic_apply_fn :
  CriticParams -> CriticH -> ObsArr * DoneArr -> CriticH * list R.
Variable policy_log_prob : Policy -> ActionArr -> list R.
Variable policy_entropy : Policy -> Key -> list R.
Variables (clip_eps ent_coef vf_coef : R).

Local Abbreviation Minibatch :=
  (RNNPPOTransition DoneArr ActionArr (list R) RewardArr (list R) ObsArr
     (HiddenStates (list PolicyH) (list CriticH))).

Lemma arr_sum_map_le (f g : nat -> R) (l : list nat) :
  (forall i, In i l -> f i <= g i) -> arr_sum (map f l) <= arr_sum (map g l).
Proof.
  unfold arr_sum. induction l as [| a l IH]; intros Hfg; cbn; [lra |].
  pose proof (Hfg a (or_introl eq_refl)).
  assert (fold_right Rplus 0 (map f l) <= fold_right Rplus 0 (map g l))
    by (apply IH; intros i Hi; apply Hfg; now right).
  lra.
Qed.

Lemma sum_upto_le (n : nat) (f g : nat -> R) :
  (forall i, (i < n)%nat -> f i <= g i) -> sum_upto n f <= sum_upto n g.
Proof.
  intros Hfg. apply arr_sum_map_le. intros i Hi. apply in_seq in Hi.
  apply Hfg. lia.
Qed.

Lemma Rinv_INR_nonneg (n : nat) : 0 <= / INR n.
Proof.
  destruct n as [| n]; [cbn; rewrite Rinv_0; lra |].
  left. apply Rinv_0_lt_compat, lt_0_INR. lia.
Qed.

(** X20: when the re-evaluated policy gives the actions of a non-empty
    minibatch the log-probabilities stored with them, as it does before
    the parameters have moved, every ratio is one and nothing is clipped,
    whatever [clip_eps >= 0] is: the actor loss is minus the mean of the
    normalised advantages. *)
Theorem _actor_loss_fn_unchanged_policy (actor_params : ActorParams)
  (traj_batch : Minibatch) (gae : list R) (key : Key) (hstate0 : PolicyH)
  (later : list PolicyH) :
  policy_hidden_state (hstates traj_batch) = hstate0 :: later ->
  let actor_policy :=
    snd (actor_apply_fn actor_params hstate0 (obs traj_batch, done traj_batch)) in
  policy_log_prob actor_policy (action traj_batch) = log_prob traj_batch ->
  gae <> [] -> length (log_prob traj_batch) = length gae -> 0 <= clip_eps ->
  let actor_loss := - mean (normalise_advantages gae) in
  let entropy := mean (policy_entropy actor_policy key) in
  _actor_loss_fn actor_apply_fn policy_log_prob policy_entropy clip_eps ent_coef
    actor_params traj_batch gae key
  = Return (actor_loss - ent_coef * entropy, (actor_loss, entropy)).
Proof.
  intros Hh actor_policy Hsame Hne Hlen Heps actor_loss entropy.
  unfold _actor_loss_fn. rewrite Hh. subst entropy actor_loss actor_policy.
  destruct (actor_apply_fn actor_params hstate0 (obs traj_batch, done traj_batch))
    as [h policy].
  cbn [snd] in *. rewrite Hsame.
  set (lp := log_prob traj_batch) in *.
  set (n := length gae) in *.
  set (A := normalise_advantages gae).
  assert (HA : length A = n) by apply length_normalise_advantages.
  assert (Hloss :
    mean (arr_neg
            (arr_minimum
               (arr_mul (arr_exp (arr_sub lp lp)) A)
               (arr_mul
                  (arr_clip (arr_exp (arr_sub lp lp)) (1 - clip_eps) (1 + clip_eps))
                  A)))
    = - mean A).
  { unfold mean. rewrite (arr_sum_by_index A), arr_sum_by_index.
    assert (Hl :
      length (arr_neg
                (arr_minimum
                   (arr_mul (arr_exp (arr_sub lp lp)) A)
                   (arr_mul
                      (arr_clip (arr_exp (arr_sub lp lp))
                         (1 - clip_eps) (1 + clip_eps)) A))) = n).
    { unfold arr_neg, arr_minimum, arr_mul, arr_exp, arr_sub, arr_clip.
      auto 20 with arr. }
    rewrite Hl, HA.
    rewrite (@sum_upto_ext n _ (fun i => - nth i A 0)).
    - rewrite sum_upto_opp. unfold Rdiv. ring.
    - intros i Hi. arr_nth n.
      replace (nth i lp 0 - nth i lp 0) with 0 by ring. rewrite exp_0.
      replace (clip 1 (1 - clip_eps) (1 + clip_eps)) with 1
        by (unfold clip, Rmin, Rmax; repeat destruct Rle_dec; lra).
      unfold Rmin. destruct Rle_dec; ring. }
  rewrite Hloss. reflexivity.
Qed.

(** X21: the critic loss is never negative, and clipping the new value can
    only raise it: it is at least half the mean squared error of the new
    value against the targets. *)
Theorem _critic_loss_fn_bounds (critic_params : CriticParams)
  (traj_batch : Minibatch) (targets : list R) (hstate0 : CriticH)
  (later : list CriticH) :
  critic_hidden_state (hstates traj_batch) = hstate0 :: later ->
  let new_value :=
    snd (critic_apply_fn critic_params hstate0 (obs traj_batch, done traj_batch)) in
  length new_value = length targets ->
  length (value traj_batch) = length targets ->
  exists value_loss,
    _critic_loss_fn critic_apply_fn clip_eps vf_coef critic_params traj_batch targets
      = Return (vf_coef * value_loss, value_loss) /\
    0 <= value_loss /\
    0.5 * mean (arr_square (arr_sub new_value targets)) <= value_loss.
Proof.
  intros Hh new_value Hnew Hold.
  unfold _critic_loss_fn. rewrite Hh. subst new_value.
  destruct (critic_apply_fn critic_params hstate0 (obs traj_batch, done traj_batch))
    as [h value'].
  cbn [snd] in *.
  set (old := value traj_batch) in *.
  set (n := length targets) in *.
  set (plain := arr_square (arr_sub value' targets)).
  set (clipped :=
    arr_square
      (arr_sub (arr_add old (arr_clip (arr_sub value' old) (- clip_eps) clip_eps))
         targets)).
  assert (Hp : length plain = n)
    by (unfold plain, arr_square, arr_sub; auto 20 with arr).
  assert (Hc : length clipped = n)
    by (unfold clipped, arr_square, arr_sub, arr_add, arr_clip; auto 20 with arr).
  assert (Hm : length (arr_maximum plain clipped) = n)
    by (unfold arr_maximum; auto with arr).
  eexists. split; [reflexivity |].
  pose proof (Rinv_INR_nonneg n) as Hinv.
  assert (Hsum : arr_sum plain <= arr_sum (arr_maximum plain clipped)).
  { rewrite !arr_sum_by_index, Hp, Hm. apply sum_upto_le. intros i Hi.
    unfold arr_maximum.
    rewrite (@nth_map2_eq R R R _ _ _ n _ 0 0 0) by assumption.
    apply Rmax_l. }
  assert (Hpos : 0 <= arr_sum plain).
  { unfold plain, arr_square. apply (arr_sum_squares_nonneg (fun a => a)). }
  unfold mean, Rdiv. rewrite Hp, Hm. split; nra.
Qed.

End LossBounds.

Section LossBoundsExample.

Local Open Scope R_scope.

Lemma _actor_loss_fn_unchanged_policy_witness :
  _actor_loss_fn actor2 log_prob2 entropy2 0.2 0.01 tt minibatch2 [1; 3] tt
  = Return (- mean (normalise_advantages [1; 3]) - 0.01 * mean (entropy2 7 tt),
            (- mean (normalise_advantages [1; 3]), mean (entropy2 7 tt))).
Proof.
  refine (@_actor_loss_fn_unchanged_policy unit nat nat unit unit unit unit nat unit
            actor2 log_prob2 entropy2 0.2 0.01 tt minibatch2 [1; 3] tt 7%nat
            [8%nat] eq_refl eq_refl _ eq_refl _); [discriminate | lra].
Defined.

Lemma _critic_loss_fn_bounds_witness :
  exists value_loss,
    _critic_loss_fn critic2 0.2 0.5 tt minibatch2 [1; 1]
      = Return (0.5 * value_loss, value_loss) /\
    0 <= value_loss /\
    0.5 * mean (arr_square (arr_sub (snd (critic2 tt 3%nat (tt, tt))) [1; 1]))
      <= value_loss.
Proof.
  exact (@_critic_loss_fn_bounds unit nat nat unit unit unit unit critic2 0.2 0.5
           tt minibatch2 [1; 1] 3%nat [4%nat] eq_refl eq_refl eq_refl).
Defined.

End LossBoundsExample.

(** ** An unset chunk size and the shuffle *)

(** X19: with [recurrent_chunk_size] unset and a number of environments
    that the number of minibatches does not divide, the checks of
    [run_experiment] pass and set the chunk size to the rollout length, and
    it is the shuffle of the first epoch that has no result: the split of
    the permuted batch axis into minibatches fails. *)
Theorem unset_chunk_shuffle_undefined (config : Config) (A : Type) (fill : A)
  (permutation : list nat) (x : list (list A)) :
  recurrent_chunk_size config = None ->
  (0 < rollout_length config)%Z -> (0 <= num_envs config)%Z ->
  (0 < num_minibatches config)%Z ->
  (num_envs config mod num_minibatches config <> 0)%Z ->
  length permutation
    = batch_extent (Z.to_nat (rollout_length config))
        (Z.to_nat (rollout_length config)) (Z.to_nat (num_envs config)) ->
  exists config',
    config_checks config = Return config' /\
    recurrent_chunk_size config' = Some (rollout_length config) /\
    minibatches_of (Z.to_nat (rollout_length config'))
      (Z.to_nat (rollout_length config)) (Z.to_nat (num_envs config'))
      (Z.to_nat (num_minibatches config')) fill permutation x
    = None.
Proof.
  intros Hc Hr He Hm Hmod Hlen.
  exists (set_recurrent_chunk_size config (rollout_length config)).
  split; [unfold config_checks, run_experiment; now rewrite Hc |].
  split; [reflexivity |].
  cbn [set_recurrent_chunk_size rollout_length num_envs num_minibatches].
  unfold minibatches_of.
  destruct (reshape _ _ x) as [batch |]; [| reflexivity].
  unfold reshape_split. rewrite Hlen.
  unfold batch_extent, num_recurrent_chunks.
  rewrite Nat.div_same, Nat.mul_1_r by lia.
  destruct (Nat.eqb_spec (Z.to_nat (num_minibatches config)) 0); [reflexivity |].
  cbn [orb].
  destruct (Nat.eqb_spec
              (Z.to_nat (num_envs config) mod Z.to_nat (num_minibatches config)) 0)
    as [Hz |]; [| reflexivity].
  exfalso. apply Hmod.
  rewrite <- (Z2Nat.id (num_envs config)), <- (Z2Nat.id (num_minibatches config))
    by lia.
  rewrite <- Nat2Z.inj_mod, Hz. reflexivity.
Qed.

(** Four steps of three environments in two minibatches. *)
Lemma unset_chunk_shuffle_undefined_witness :
  exists config',
    config_checks {| rollout_length := 4; recurrent_chunk_size := None;
                     num_envs := 3; num_minibatches := 2 |}
    = Return config' /\
    recurrent_chunk_size config' = Some 4%Z /\
    minibatches_of (Z.to_nat (rollout_length config')) (Z.to_nat 4)
      (Z.to_nat (num_envs config')) (Z.to_nat (num_minibatches config')) 0
      [2; 0; 1]
      [[0; 1; 2]; [10; 11; 12]; [20; 21; 22]; [30; 31; 32]]
    = None.
Proof.
  apply (@unset_chunk_shuffle_undefined
           {| rollout_length := 4; recurrent_chunk_size := None;
              num_envs := 3; num_minibatches := 2 |} nat 0 [2; 0; 1]);
    try reflexivity; try discriminate.
Defined.
